(** * Publisher Ads audits: CumulativeAdShift, FirstAdPaint, GptBidsInParallel

    A shallow embedding of three Lighthouse audits of the publisher-ads
    plugin, and the properties of their scoring and selection logic.

    - [JsNumber]: the values of a JavaScript [number] that the audits
      compare and add (NaN, the two infinities, finite values).  Finite
      values are exact rationals: the rounding of IEEE-754 doubles is not
      modelled, the special values and the comparison rules are.
    - [CumulativeAdShift]: audits/cumulative-ad-shift.js.
    - [FirstAdPaint]: the first-ad-paint audit.
    - [GptBidsInParallel]: the gpt-bids-parallel audit.

    Helpers that live in other modules of the plugin (geometry, resource
    classification, graph, network timing) and Lighthouse's own
    [Audit.computeLogNormalScore] are section variables: the audits are
    verified for every implementation of them.  [getScriptUrl], which
    CumulativeAdShift calls on every trace event it searches, may throw:
    it returns an [Outcome], and so does the audit. *)

From stdpp Require Import gmap strings list.
From Stdlib Require Import QArith Lqa.

Close Scope Q_scope.

Set Default Proof Using "Type".

(* ===================================================================== *)
(** ** JavaScript numbers *)
(* ===================================================================== *)

Module JsNumber.

Local Open Scope Q_scope.

Inductive number : Type :=
  | NaN
  | NegInfinity
  | Num (q : Q)
  | Infinity.

(** [a < b]: false as soon as one side is NaN. *)
Definition lt (a b : number) : bool :=
  match a, b with
  | NaN, _ | _, NaN => false
  | NegInfinity, NegInfinity => false
  | NegInfinity, _ => true
  | Num _, NegInfinity => false
  | Num x, Num y => negb (Qle_bool y x)
  | Num _, Infinity => true
  | Infinity, _ => false
  end.

(** [a <= b]: false as soon as one side is NaN. *)
Definition le (a b : number) : bool :=
  match a, b with
  | NaN, _ | _, NaN => false
  | NegInfinity, _ => true
  | Num _, NegInfinity => false
  | Num x, Num y => Qle_bool x y
  | Num _, Infinity => true
  | Infinity, Infinity => true
  | Infinity, _ => false
  end.

(** [a > b] and [a >= b]. *)
Definition gt (a b : number) : bool := lt b a.
Definition ge (a b : number) : bool := le b a.

(** [a + b]: NaN is absorbing and opposite infinities cancel to NaN. *)
Definition add (a b : number) : number :=
  match a, b with
  | NaN, _ | _, NaN => NaN
  | Infinity, NegInfinity | NegInfinity, Infinity => NaN
  | Infinity, _ | _, Infinity => Infinity
  | NegInfinity, _ | _, NegInfinity => NegInfinity
  | Num x, Num y => Num (x + y)
  end.

Definition neg (a : number) : number :=
  match a with
  | NaN => NaN
  | NegInfinity => Infinity
  | Num x => Num (- x)
  | Infinity => NegInfinity
  end.

(** [a - b]. *)
Definition sub (a b : number) : number := add a (neg b).

(** The sign of an infinity scaled by a finite factor [q]. *)
Definition scaleInf (pos : bool) (q : Q) : number :=
  match (q ?= 0)%Q with
  | Eq => NaN
  | Gt => if pos then Infinity else NegInfinity
  | Lt => if pos then NegInfinity else Infinity
  end.

(** [a * b]. *)
Definition mul (a b : number) : number :=
  match a, b with
  | NaN, _ | _, NaN => NaN
  | Num x, Num y => Num (x * y)
  | Infinity, Num q | Num q, Infinity => scaleInf true q
  | NegInfinity, Num q | Num q, NegInfinity => scaleInf false q
  | Infinity, Infinity | NegInfinity, NegInfinity => Infinity
  | Infinity, NegInfinity | NegInfinity, Infinity => NegInfinity
  end.

(** A finite value: neither NaN nor an infinity ([Number.isFinite]). *)
Definition isFinite (a : number) : bool :=
  match a with Num _ => true | _ => false end.

(** Reading an absent property gives [undefined], and arithmetic on
    [undefined] gives NaN. *)
Definition ofOptional (o : option number) : number :=
  match o with Some n => n | None => NaN end.

Definition zero : number := Num 0.
Definition one : number := Num 1.

(** Truthiness of an optional boolean property: absent is falsy. *)
Definition truthy (o : option bool) : bool :=
  match o with Some b => b | None => false end.

(** [s || ''] on an optional string. *)
Definition orEmpty (o : option string) : string :=
  match o with Some s => s | None => EmptyString end.

End JsNumber.

Import JsNumber.

(* ===================================================================== *)
(** ** Trace events and iframe artifacts *)
(* ===================================================================== *)

(** The [clientRect] of an element artifact. *)
Record ClientRect := {
  top : number;
  bottom : number;
  left : number;
  right : number;
  width : number;
  height : number;
}.

(** An entry of [args.data.impacted_nodes]. *)
Record ImpactedNode := {
  old_rect : option (list number);
  new_rect : option (list number);
}.

(** [args.data] of a trace event; every property is optional. *)
Record EventData := {
  is_main_frame : option bool;
  had_recent_input : option bool;
  score : option number;
  impacted_nodes : option (list ImpactedNode);
}.

Record EventArgs := {
  data : option EventData;
}.

Record TraceEvent := {
  name : string;
  ts : number;
  args : option EventArgs;
}.

Record IFrameElement := {
  id : string;
  src : string;
  clientRect : ClientRect;
}.

(** Why an audit does not apply. *)
Inductive NotApplicableReason :=
  | NoLayoutShifts
  | NoAdRendered
  | NO_TAG
  | NO_BIDS.

(** An exception value. *)
Inductive JsError :=
  | TypeError.

(** The outcome of a call that can throw. *)
Inductive Outcome (A : Type) : Type :=
  | Returns (a : A)
  | Throws (err : JsError).

Arguments Returns {A} a.
Arguments Throws {A} err.

(* ===================================================================== *)
(** ** audits/cumulative-ad-shift.js *)
(* ===================================================================== *)

Module CumulativeAdShift.

(** The object returned by [compute]. *)
Record Details := {
  cumulativeShift : number;
  numShifts : nat;
  cumulativeAdShift : number;
  numAdShifts : nat;
  cumulativePreImplTagAdShift : number;
  numPreImplTagAdShifts : nat;
}.

(** Score options of the audit. *)
Record ScoreOptions := {
  p10 : number;
  median : number;
}.

Definition defaultOptions : ScoreOptions :=
  {| p10 := Num (5 # 100)%Q; median := Num (25 # 100)%Q |}.

(** The audit product. *)
Record Product := {
  numericValue : number;
  numericUnit : string;
  productScore : number;
  displayValue : string;
  details : Details;
}.

Inductive AuditResult :=
  | NotApplicable (reason : NotApplicableReason)
  | Applicable (p : Product).

(** [event.args.data], when both [args] and [data] are present. *)
Definition eventData (e : TraceEvent) : option EventData :=
  match args e with
  | Some a => data a
  | None => None
  end.

(** The invariant of the loop on the three event counters. *)
Definition countersOrdered (r : Details) : Prop :=
  numPreImplTagAdShifts r ≤ numAdShifts r ∧ numAdShifts r ≤ numShifts r.

(** The invariant of the loop on the three sums. *)
Definition sumsOrdered (r : Details) : Prop :=
  le zero (cumulativePreImplTagAdShift r) = true ∧
  le (cumulativePreImplTagAdShift r) (cumulativeAdShift r) = true ∧
  le (cumulativeAdShift r) (cumulativeShift r) = true.

(** An event flagged as main-frame and without recent input. *)
Definition qualifies (e : TraceEvent) : bool :=
  match eventData e with
  | Some d => truthy (is_main_frame d) && negb (truthy (had_recent_input d))
  | None => false
  end.

(** [event.args.data.score] as the loop of [compute] adds it: NaN when the
    property is absent. *)
Definition eventScore (e : TraceEvent) : number :=
  match eventData e with
  | Some d => ofOptional (score d)
  | None => NaN
  end.

(** The sum of the scores of [events], added from zero in list order. *)
Definition sumScores (events : list TraceEvent) : number :=
  fold_left add (map eventScore events) zero.

Section Audit.

(** utils/geometry *)
Variable toClientRect : list number → ClientRect.
Variable overlaps : ClientRect → ClientRect → bool.
(** utils/resource-classification *)
Variable isAdIframe : IFrameElement → bool.
Variable isImplTag : string → bool.
(** utils/network-timing; the helper reads into the event and may throw. *)
Variable getScriptUrl : TraceEvent → Outcome (option string).
(** Lighthouse: [Audit.computeLogNormalScore(controlPoints, value)] *)
Variable computeLogNormalScore : ScoreOptions → number → number.
(** [Number.prototype.toLocaleString] *)
Variable toLocaleString : number → string.

(** The inner loop of [isAdShift]: does a node of the event overlap [ad]? *)
Definition nodeOverlaps (ad : IFrameElement) (node : ImpactedNode) : bool :=
  let oldRect := default [] (old_rect node) in
  let shiftRect := toClientRect oldRect in
  let adRect := clientRect ad in
  overlaps shiftRect adRect.

Definition isAdShift (shiftEvent : TraceEvent) (ads : list IFrameElement)
  : bool :=
  match eventData shiftEvent with
  | None => false
  | Some d =>
      existsb
        (fun ad => existsb (nodeOverlaps ad) (default [] (impacted_nodes d)))
        ads
  end.

(** The [continue] guard of the loop of [compute]; the data of the event
    when it is counted. *)
Definition counted (event : TraceEvent) : option EventData :=
  match eventData event with
  | None => None
  | Some d =>
      if negb (truthy (is_main_frame d)) || truthy (had_recent_input d)
      then None
      else Some d
  end.

Definition initial : Details :=
  {| cumulativeShift := zero; numShifts := 0;
     cumulativeAdShift := zero; numAdShifts := 0;
     cumulativePreImplTagAdShift := zero; numPreImplTagAdShifts := 0 |}.

(** One iteration of the loop of [compute]. *)
Definition computeStep (ads : list IFrameElement) (tagLoadTs : number)
    (acc : Details) (event : TraceEvent) : Details :=
  match counted event with
  | None => acc
  | Some d =>
      let s := ofOptional (score d) in
      let cumulativeShift' := add (cumulativeShift acc) s in
      let numShifts' := S (numShifts acc) in
      if isAdShift event ads then
        let cumulativeAdShift' := add (cumulativeAdShift acc) s in
        let numAdShifts' := S (numAdShifts acc) in
        if lt (ts event) tagLoadTs then
          {| cumulativeShift := cumulativeShift';
             numShifts := numShifts';
             cumulativeAdShift := cumulativeAdShift';
             numAdShifts := numAdShifts';
             cumulativePreImplTagAdShift :=
               add (cumulativePreImplTagAdShift acc) s;
             numPreImplTagAdShifts := S (numPreImplTagAdShifts acc) |}
        else
          {| cumulativeShift := cumulativeShift';
             numShifts := numShifts';
             cumulativeAdShift := cumulativeAdShift';
             numAdShifts := numAdShifts';
             cumulativePreImplTagAdShift := cumulativePreImplTagAdShift acc;
             numPreImplTagAdShifts := numPreImplTagAdShifts acc |}
      else
        {| cumulativeShift := cumulativeShift';
           numShifts := numShifts';
           cumulativeAdShift := cumulativeAdShift acc;
           numAdShifts := numAdShifts acc;
           cumulativePreImplTagAdShift := cumulativePreImplTagAdShift acc;
           numPreImplTagAdShifts := numPreImplTagAdShifts acc |}
  end.

Definition computeFrom (acc : Details) (shiftEvents : list TraceEvent)
    (ads : list IFrameElement) (tagLoadTs : number) : Details :=
  fold_left (computeStep ads tagLoadTs) shiftEvents acc.

Definition compute (shiftEvents : list TraceEvent)
    (ads : list IFrameElement) (tagLoadTs : number) : Details :=
  computeFrom initial shiftEvents ads tagLoadTs.

(** The events [compute] counts as ad shifts, and as ad shifts before the
    tag load. *)
Definition countedAdShift (ads : list IFrameElement) (e : TraceEvent)
  : bool :=
  qualifies e && isAdShift e ads.

Definition countedPreTagAdShift (ads : list IFrameElement)
    (tagLoadTs : number) (e : TraceEvent) : bool :=
  countedAdShift ads e && lt (ts e) tagLoadTs.

(** [(e) => e.name === 'LayoutShift'] *)
Definition isLayoutShift (e : TraceEvent) : bool :=
  String.eqb (name e) "LayoutShift".

(** [(e) => isImplTag(getScriptUrl(e) || '')] *)
Definition isTagLoad (e : TraceEvent) : Outcome bool :=
  match getScriptUrl e with
  | Returns u => Returns (isImplTag (orEmpty u))
  | Throws err => Throws err
  end.

(** [trace.traceEvents.find(isTagLoad)]: the events are tried in order,
    the first one for which the callback answers true is the result, and
    an exception of the callback ends the search. *)
Fixpoint findTagLoad (traceEvents : list TraceEvent)
  : Outcome (option TraceEvent) :=
  match traceEvents with
  | [] => Returns None
  | e :: rest =>
      match isTagLoad e with
      | Throws err => Throws err
      | Returns true => Returns (Some e)
      | Returns false => findTagLoad rest
      end
  end.

(** [tagLoadEvent.ts], with the stand-in [{ts: Infinity}]. *)
Definition tagLoadTs (traceEvents : list TraceEvent) : Outcome number :=
  match findTagLoad traceEvents with
  | Returns (Some e) => Returns (ts e)
  | Returns None => Returns Infinity
  | Throws err => Throws err
  end.

Definition audit (traceEvents : list TraceEvent)
    (IFrameElements : list IFrameElement) (options : ScoreOptions)
  : Outcome AuditResult :=
  let shiftEvents := List.filter isLayoutShift traceEvents in
  match shiftEvents with
  | [] => Returns (NotApplicable NoLayoutShifts)
  | _ :: _ =>
      match tagLoadTs traceEvents with
      | Throws err => Throws err
      | Returns tagTs =>
          let ads := List.filter isAdIframe IFrameElements in
          match ads with
          | [] => Returns (NotApplicable NoAdRendered)
          | _ :: _ =>
              let details := compute shiftEvents ads tagTs in
              let rawScore := cumulativeAdShift details in
              Returns
                (Applicable
                   {| numericValue := rawScore;
                      numericUnit := "unitless";
                      productScore := computeLogNormalScore options rawScore;
                      displayValue := toLocaleString rawScore;
                      details := details |})
          end
      end
  end.

End Audit.

End CumulativeAdShift.

(* ===================================================================== *)
(** ** The first-ad-paint audit *)
(* ===================================================================== *)

Module FirstAdPaint.

(** Point of diminishing returns and median, in ms. *)
Definition PODR : number := Num 3000.
Definition MEDIAN : number := Num 4000.

(** messages/common-strings: [runWarning]. *)
Inductive RunWarning :=
  | WarnNoAdRendered.

(** One invocation of [Audit.computeLogNormalScore(value, podr, median)]. *)
Record ScoreCall := {
  measuredValue : number;
  diminishingReturnsValue : number;
  medianValue : number;
}.

(** What the audit can observe and change besides its result: the run
    warnings of the context, which it pushes to, and the invocations of
    the score curve, in order. *)
Record World := {
  LighthouseRunWarnings : list RunWarning;
  scoreCalls : list ScoreCall;
}.

Record Product := {
  numericValue : number;
  productScore : number;
  displayValue : string;
}.

Inductive AuditResult :=
  | NotApplicable (reason : NotApplicableReason)
  | Applicable (p : Product).

(** Computations of the audit: a state monad over [World]. *)
Definition M (A : Type) : Type := World → A * World.

#[global] Instance M_ret : MRet M := fun A (a : A) w => (a, w).

#[global] Instance M_bind : MBind M :=
  fun A B (k : A → M B) (m : M A) w => let '(a, w') := m w in k a w'.

(** [context.LighthouseRunWarnings.push(w)] *)
Definition pushWarning (w : RunWarning) : M unit :=
  fun st =>
    (tt, {| LighthouseRunWarnings := LighthouseRunWarnings st ++ [w];
            scoreCalls := scoreCalls st |}).

Section Audit.

(** Lighthouse: [Audit.computeLogNormalScore(value, podr, median)] *)
Variable computeLogNormalScore : number → number → number → number.
(** computed/ad-paint-time: the [timing] of [AdPaintTime.request]. *)
Variable Artifacts : Type.
Variable requestAdPaintTime : Artifacts → number.
(** [str_(UIStrings.displayValue, {timeInMs: timing})] *)
Variable formatDisplayValue : number → string.

(** A call of the score curve, recorded in the world. *)
Definition callLogNormalScore (value podr median : number) : M number :=
  fun st =>
    (computeLogNormalScore value podr median,
     {| LighthouseRunWarnings := LighthouseRunWarnings st;
        scoreCalls := scoreCalls st ++
          [{| measuredValue := value; diminishingReturnsValue := podr;
              medianValue := median |}] |}).

(** The audit from the awaited [timing] on. *)
Definition auditTiming (timing : number) : M AuditResult :=
  if negb (gt timing zero) then
    pushWarning WarnNoAdRendered ;;
    mret (NotApplicable NoAdRendered)
  else
    normalScore ← callLogNormalScore timing PODR MEDIAN ;
    let normalScore := if ge normalScore (Num (9 # 10)%Q) then one
                       else normalScore in
    mret (Applicable
            {| numericValue := mul timing (Num (1 # 1000)%Q);
               productScore := normalScore;
               displayValue := formatDisplayValue timing |}).

Definition audit (artifacts : Artifacts) : M AuditResult :=
  auditTiming (requestAdPaintTime artifacts).

End Audit.

End FirstAdPaint.

(* ===================================================================== *)
(** ** The gpt-bids-parallel audit *)
(* ===================================================================== *)

(** A network record.  [Map] and [Set] compare records by reference, so a
    record carries the reference [ref] of the object. *)
Module NetworkRequest.
Record t := {
  ref : positive;
  url : string;
  frameId : option string;
  startTime : number;
  endTime : number;
}.
End NetworkRequest.

(** A simulated timing of a record. *)
Module NodeTiming.
Record t := {
  startTime : number;
  endTime : number;
  duration : number;
}.
End NodeTiming.

(** A row of the failure table. *)
Module TableRow.
Record t := {
  bidder : string;
  url : string;
  startTime : number;
  duration : number;
}.
End TableRow.

Module GptBidsInParallel.

Record Heading := {
  key : string;
  itemType : string;
  text : string;
}.

Definition HEADINGS : list Heading :=
  [ {| key := "bidder"; itemType := "text"; text := "Bidder" |};
    {| key := "url"; itemType := "url"; text := "URL" |};
    {| key := "startTime"; itemType := "ms"; text := "Start time" |};
    {| key := "duration"; itemType := "ms"; text := "Duration" |} ].

(** [Audit.makeTableDetails(headings, items)] *)
Record TableDetails := {
  headings : list Heading;
  items : list TableRow.t;
}.

Definition makeTableDetails (hs : list Heading) (rows : list TableRow.t)
  : TableDetails :=
  {| headings := hs; items := rows |}.

Record Product := {
  numericValue : nat;
  productScore : number;
  details : option TableDetails;
}.

Inductive AuditResult :=
  | NotApplicable (reason : NotApplicableReason)
  | Applicable (p : Product).

Section Audit.

(** utils/resource-classification *)
Variable isImplTag : string → bool.
Variable isBidRequest : NetworkRequest.t → bool.
Variable getAbbreviatedUrl : string → string.
Variable getHeaderBidder : string → option string.
(** utils/graph: the references of the records of the critical graph. *)
Variable getCriticalGraph :
  list NetworkRequest.t → list TraceEvent → NetworkRequest.t → gset positive.
(** Lighthouse: the network records of a devtools log. *)
Variable DevtoolsLog : Type.
Variable requestNetworkRecords : DevtoolsLog → list NetworkRequest.t.
(** utils/network-timing: the timings, keyed by record reference. *)
Variable getTimingsByRecord :
  list TraceEvent → DevtoolsLog → gmap positive NodeTiming.t.

(** [const {startTime, endTime} = timingsByRecord.get(bid) || bid] *)
Definition bidTiming (timingsByRecord : gmap positive NodeTiming.t)
    (bid : NetworkRequest.t) : number * number :=
  match timingsByRecord !! NetworkRequest.ref bid with
  | Some t => (NodeTiming.startTime t, NodeTiming.endTime t)
  | None => (NetworkRequest.startTime bid, NetworkRequest.endTime bid)
  end.

(** [getHeaderBidder(bid.url) || ''] *)
Definition bidderOf (bid : NetworkRequest.t) : string :=
  orEmpty (getHeaderBidder (NetworkRequest.url bid)).

(** The object pushed to [tableView] for [bid]. *)
Definition rowOf (timingsByRecord : gmap positive NodeTiming.t)
    (bid : NetworkRequest.t) : TableRow.t :=
  let '(startTime, endTime) := bidTiming timingsByRecord bid in
  {| TableRow.bidder := bidderOf bid;
     TableRow.url := getAbbreviatedUrl (NetworkRequest.url bid);
     TableRow.startTime := startTime;
     TableRow.duration := sub endTime startTime |}.

(** [getCriticalGraph(network, trace.traceEvents, bid).has(pubadsImpl)] *)
Definition onCriticalGraph (network : list NetworkRequest.t)
    (traceEvents : list TraceEvent) (pubadsImpl bid : NetworkRequest.t)
  : bool :=
  bool_decide
    (NetworkRequest.ref pubadsImpl ∈ getCriticalGraph network traceEvents bid).

(** The [for (const bid of bids)] loop, from the current [tableView] and
    [seen]. *)
Fixpoint auditLoop (network : list NetworkRequest.t)
    (traceEvents : list TraceEvent) (pubadsImpl : NetworkRequest.t)
    (timingsByRecord : gmap positive NodeTiming.t)
    (bids : list NetworkRequest.t)
    (tableView : list TableRow.t) (seen : gset string)
  : list TableRow.t * gset string :=
  match bids with
  | [] => (tableView, seen)
  | bid :: rest =>
      if onCriticalGraph network traceEvents pubadsImpl bid then
        let bidder := bidderOf bid in
        if bool_decide (bidder ∈ seen) then
          auditLoop network traceEvents pubadsImpl timingsByRecord rest
            tableView seen
        else
          auditLoop network traceEvents pubadsImpl timingsByRecord rest
            (tableView ++ [rowOf timingsByRecord bid]) ({[bidder]} ∪ seen)
      else
        auditLoop network traceEvents pubadsImpl timingsByRecord rest
          tableView seen
  end.

(** [network.filter(isBidRequest)
       .filter((b) => b.frameId == pubadsImpl.frameId)] *)
Definition bidsOf (network : list NetworkRequest.t)
    (pubadsImpl : NetworkRequest.t) : list NetworkRequest.t :=
  List.filter
    (fun b => bool_decide
                (NetworkRequest.frameId b = NetworkRequest.frameId pubadsImpl))
    (List.filter isBidRequest network).

(** The rows of the failure table for the bids of [network]. *)
Definition tableView (network : list NetworkRequest.t)
    (traceEvents : list TraceEvent) (pubadsImpl : NetworkRequest.t)
    (timingsByRecord : gmap positive NodeTiming.t) : list TableRow.t :=
  fst (auditLoop network traceEvents pubadsImpl timingsByRecord
         (bidsOf network pubadsImpl) [] ∅).

Definition audit (devtoolsLog : DevtoolsLog) (traceEvents : list TraceEvent)
  : AuditResult :=
  let network := requestNetworkRecords devtoolsLog in
  match List.find (fun r => isImplTag (NetworkRequest.url r)) network with
  | None => NotApplicable NO_TAG
  | Some pubadsImpl =>
      match bidsOf network pubadsImpl with
      | [] => NotApplicable NO_BIDS
      | _ :: _ =>
          let timingsByRecord := getTimingsByRecord traceEvents devtoolsLog in
          let tableView :=
            tableView network traceEvents pubadsImpl timingsByRecord in
          let failed := negb (Nat.eqb (length tableView) 0) in
          Applicable
            {| numericValue := length tableView;
               productScore := if failed then zero else one;
               details :=
                 if failed then Some (makeTableDetails HEADINGS tableView)
                 else None |}
      end
  end.

(** The bids whose pass through the loop pushes a row: the bids the audit
    reports as serialized, in table order. *)
Fixpoint reportedBids (network : list NetworkRequest.t)
    (traceEvents : list TraceEvent) (pubadsImpl : NetworkRequest.t)
    (bids : list NetworkRequest.t) (seen : gset string)
  : list NetworkRequest.t :=
  match bids with
  | [] => []
  | bid :: rest =>
      if onCriticalGraph network traceEvents pubadsImpl bid then
        if bool_decide (bidderOf bid ∈ seen) then
          reportedBids network traceEvents pubadsImpl rest seen
        else
          bid :: reportedBids network traceEvents pubadsImpl rest
                   ({[bidderOf bid]} ∪ seen)
      else reportedBids network traceEvents pubadsImpl rest seen
  end.

End Audit.

End GptBidsInParallel.

(* ===================================================================== *)
(** ** One implementation of the helpers, and inputs for the examples *)
(* ===================================================================== *)

(** The audits are verified for every implementation of the helpers.  The
    examples need one: the definitions of this module are stand-ins, not
    the plugin's own helpers. *)
Module Sample.

(** Rectangles given as [[left, top, width, height]]. *)
Definition toClientRect (a : list number) : ClientRect :=
  let l := nth 0 a NaN in
  let t := nth 1 a NaN in
  let w := nth 2 a NaN in
  let h := nth 3 a NaN in
  {| top := t; bottom := add t h; left := l; right := add l w;
     width := w; height := h |}.

Definition overlaps (a b : ClientRect) : bool :=
  negb (lt (right a) (left b) || lt (right b) (left a)) &&
  negb (lt (bottom a) (top b) || lt (bottom b) (top a)).

Definition isAdIframe (f : IFrameElement) : bool :=
  String.prefix "google_ads_iframe_" (id f).

Definition isImplTag (url : string) : bool :=
  String.eqb url "https://securepubads.g.doubleclick.net/gpt/pubads_impl.js".

(** A helper that finds no script URL in any event and never throws. *)
Definition getScriptUrl (e : TraceEvent) : Outcome (option string) :=
  Returns None.

Definition toLocaleString (n : number) : string := "".

(** A piecewise-linear curve through (p10, 0.9) and (median, 0.5), cut to
    [0, 1]; an infinite value scores 0. *)
Definition curve (value p10 median : number) : number :=
  match value, p10, median with
  | Num v, Num p, Num m =>
      let s := ((1 # 2) + (4 # 10) * (m - v) / (m - p))%Q in
      if Qle_bool s 0 then Num 0
      else if Qle_bool 1 s then Num 1 else Num (Qred s)
  | Infinity, Num _, Num _ => Num 0
  | _, _, _ => NaN
  end.

Definition computeLogNormalScore (o : CumulativeAdShift.ScoreOptions)
    (value : number) : number :=
  curve value (CumulativeAdShift.p10 o) (CumulativeAdShift.median o).

(** A layout shift of the main frame moving a 100 x 100 node at the
    origin, with score 0.1, at time [t]. *)
Definition layoutShiftAt (t : number) : TraceEvent :=
  {| name := "LayoutShift"; ts := t;
     args := Some {| data := Some
       {| is_main_frame := Some true;
          had_recent_input := Some false;
          score := Some (Num (1 # 10)%Q);
          impacted_nodes := Some
            [ {| old_rect := Some [Num 0; Num 0; Num 100; Num 100];
                 new_rect := Some [Num 0; Num 50; Num 100; Num 100] |} ]
       |} |} |}.

(** A layout shift of a subframe. *)
Definition subframeShift : TraceEvent :=
  {| name := "LayoutShift"; ts := Num 40;
     args := Some {| data := Some
       {| is_main_frame := Some false;
          had_recent_input := None;
          score := Some (Num (3 # 10)%Q);
          impacted_nodes := None |} |} |}.

(** An ad iframe of 300 x 250 at (50, 50). *)
Definition adSlot : IFrameElement :=
  {| id := "google_ads_iframe_1"; src := "";
     clientRect := toClientRect [Num 50; Num 50; Num 300; Num 250] |}.

(** A trace without any implementation-tag event, whose only layout shift
    carries the timestamp [Infinity]. *)
Definition traceShiftAtInfinity : list TraceEvent :=
  [layoutShiftAt Infinity].

(** A trace without any implementation-tag event and with finite
    timestamps. *)
Definition traceFinite : list TraceEvent :=
  [layoutShiftAt (Num 10); subframeShift; layoutShiftAt (Num 70)].

(** Network records: the implementation tag, then three bid requests of
    the same frame. *)
Definition implTag : NetworkRequest.t :=
  {| NetworkRequest.ref := 1;
     NetworkRequest.url :=
       "https://securepubads.g.doubleclick.net/gpt/pubads_impl.js";
     NetworkRequest.frameId := Some "main";
     NetworkRequest.startTime := Num 100;
     NetworkRequest.endTime := Num 500 |}.

Definition bidA : NetworkRequest.t :=
  {| NetworkRequest.ref := 2;
     NetworkRequest.url := "https://ib.adnxs.com/ut/v3/prebid";
     NetworkRequest.frameId := Some "main";
     NetworkRequest.startTime := Num 600;
     NetworkRequest.endTime := Num 900 |}.

Definition bidB : NetworkRequest.t :=
  {| NetworkRequest.ref := 3;
     NetworkRequest.url := "https://bids.example.com/auction?slot=1";
     NetworkRequest.frameId := Some "main";
     NetworkRequest.startTime := Num 650;
     NetworkRequest.endTime := Num 800 |}.

Definition bidC : NetworkRequest.t :=
  {| NetworkRequest.ref := 4;
     NetworkRequest.url := "https://bids.example.com/auction?slot=2";
     NetworkRequest.frameId := Some "main";
     NetworkRequest.startTime := Num 50;
     NetworkRequest.endTime := Num 90 |}.

Definition bidD : NetworkRequest.t :=
  {| NetworkRequest.ref := 5;
     NetworkRequest.url := "https://bids.example.com/auction?slot=3";
     NetworkRequest.frameId := Some "main";
     NetworkRequest.startTime := Num 700;
     NetworkRequest.endTime := Num 950 |}.

Definition network : list NetworkRequest.t :=
  [implTag; bidA; bidB; bidC; bidD].

Definition isBidRequest (r : NetworkRequest.t) : bool :=
  String.prefix "https://ib.adnxs.com/" (NetworkRequest.url r) ||
  String.prefix "https://bids.example.com/" (NetworkRequest.url r).

Definition getHeaderBidder (url : string) : option string :=
  if String.prefix "https://ib.adnxs.com/" url then Some "AppNexus"
  else None.

Definition getAbbreviatedUrl (url : string) : string := url.

(** The records that ended before [bid] started. *)
Definition getCriticalGraph (net : list NetworkRequest.t)
    (events : list TraceEvent) (bid : NetworkRequest.t) : gset positive :=
  list_to_set
    (map NetworkRequest.ref
       (List.filter
          (fun r => le (NetworkRequest.endTime r) (NetworkRequest.startTime bid))
          net)).

(** The table expected for [network]: [bidA] with its simulated timing,
    [bidB] with its own; [bidC] started before the tag ended and [bidD]
    has the bidder of [bidB]. *)
Definition expectedTable : GptBidsInParallel.TableDetails :=
  {| GptBidsInParallel.headings := GptBidsInParallel.HEADINGS;
     GptBidsInParallel.items :=
       [ {| TableRow.bidder := "AppNexus";
            TableRow.url := "https://ib.adnxs.com/ut/v3/prebid";
            TableRow.startTime := Num 300;
            TableRow.duration := Num 150 |};
         {| TableRow.bidder := "";
            TableRow.url := "https://bids.example.com/auction?slot=1";
            TableRow.startTime := Num 650;
            TableRow.duration := Num 150 |} ] |}.

Definition expectedProduct : GptBidsInParallel.Product :=
  {| GptBidsInParallel.numericValue := 2;
     GptBidsInParallel.productScore := zero;
     GptBidsInParallel.details := Some expectedTable |}.

(** A world without warnings and without calls of the score curve. *)
Definition emptyWorld : FirstAdPaint.World :=
  {| FirstAdPaint.LighthouseRunWarnings := [];
     FirstAdPaint.scoreCalls := [] |}.

(** An iframe that is not an ad. *)
Definition videoFrame : IFrameElement :=
  {| id := "player"; src := "https://video.example.com/embed";
     clientRect := toClientRect [Num 0; Num 0; Num 640; Num 360] |}.

(** A helper that reads into [e.args], so that it throws a TypeError on
    an event without [args]; an EvaluateScript event stands for the
    evaluation of the implementation tag. *)
Definition getScriptUrlByName (e : TraceEvent) : Outcome (option string) :=
  match args e with
  | None => Throws TypeError
  | Some _ =>
      if String.eqb (name e) "EvaluateScript"
      then Returns
             (Some "https://securepubads.g.doubleclick.net/gpt/pubads_impl.js"%string)
      else Returns None
  end.

Definition evaluateTagAt (t : number) : TraceEvent :=
  {| name := "EvaluateScript"; ts := t; args := Some {| data := None |} |}.

(** An event without [args]. *)
Definition bareEvent : TraceEvent :=
  {| name := "RunTask"; ts := Num 30; args := None |}.

(** A layout shift followed by an event without [args]. *)
Definition traceWithBareEvent : list TraceEvent :=
  [layoutShiftAt (Num 10); bareEvent].

(** A layout shift of a subframe at time [t]; [compute] does not count
    it. *)
Definition subframeShiftAt (t : number) : TraceEvent :=
  {| name := "LayoutShift"; ts := t;
     args := Some {| data := Some
       {| is_main_frame := Some false;
          had_recent_input := None;
          score := Some (Num (3 # 10)%Q);
          impacted_nodes := None |} |} |}.

(** A trace without implementation tag in which only a shift that is not
    counted has the timestamp Infinity. *)
Definition traceUncountedAtInfinity : list TraceEvent :=
  [layoutShiftAt (Num 10); subframeShiftAt Infinity; layoutShiftAt (Num 70)].

(** A trace without implementation tag with one ad shift at a finite time
    and one at Infinity. *)
Definition traceMixed : list TraceEvent :=
  [layoutShiftAt (Num 10); layoutShiftAt Infinity].

(** A trace in which the tag is evaluated twice, at 50 and at 90. *)
Definition traceWithTag : list TraceEvent :=
  [layoutShiftAt (Num 10); evaluateTagAt (Num 50);
   layoutShiftAt (Num 70); evaluateTagAt (Num 90)].

(** A counted layout shift over the ad slot that carries no score. *)
Definition shiftWithoutScore : TraceEvent :=
  {| name := "LayoutShift"; ts := Num 20;
     args := Some {| data := Some
       {| is_main_frame := Some true;
          had_recent_input := None;
          score := None;
          impacted_nodes := Some
            [ {| old_rect := Some [Num 60; Num 60; Num 10; Num 10];
                 new_rect := None |} ] |} |} |}.

(** A simulated timing for [bidA] only. *)
Definition getTimingsByRecord (events : list TraceEvent)
    (log : list NetworkRequest.t) : gmap positive NodeTiming.t :=
  {[ 2%positive :=
       {| NodeTiming.startTime := Num 300;
          NodeTiming.endTime := Num 450;
          NodeTiming.duration := Num 150 |} ]}.

End Sample.

(* ===================================================================== *)
(** ** Order facts on JavaScript numbers *)
(* ===================================================================== *)

Section NumberFacts.

Local Open Scope Q_scope.

Lemma Qle_bool_false (x y : Q) : Qle_bool x y = false ↔ y < x.
Proof.
  split.
  - intros H. apply Qnot_le_lt. intros Hle.
    apply Qle_bool_iff in Hle. congruence.
  - intros H. destruct (Qle_bool x y) eqn:E; [|reflexivity].
    apply Qle_bool_iff in E. lra.
Qed.

(** A number at least zero is a finite non-negative value or Infinity. *)
Lemma ge_zero_cases (s : number) :
  ge s zero = true → (∃ q, s = Num q ∧ 0 <= q) ∨ s = Infinity.
Proof.
  destruct s as [| |q|]; cbn; try discriminate.
  - intros H. left. exists q. split; [reflexivity|].
    by apply Qle_bool_iff.
  - intros _. by right.
Qed.

Lemma le_add_mono (a b s : number) :
  le zero a = true → le a b = true → le zero s = true →
  le (add a s) (add b s) = true.
Proof.
  destruct a as [| |x|], b as [| |y|], s as [| |z|]; cbn;
    try discriminate; try reflexivity.
  rewrite !Qle_bool_iff. intros. lra.
Qed.

Lemma le_add_r (a b s : number) :
  le zero a = true → le a b = true → le zero s = true →
  le a (add b s) = true.
Proof.
  destruct a as [| |x|], b as [| |y|], s as [| |z|]; cbn;
    try discriminate; try reflexivity.
  rewrite !Qle_bool_iff. intros. lra.
Qed.

Lemma le_zero_add (a s : number) :
  le zero a = true → le zero s = true → le zero (add a s) = true.
Proof.
  destruct a as [| |x|], s as [| |z|]; cbn;
    try discriminate; try reflexivity.
  rewrite !Qle_bool_iff. intros. lra.
Qed.

(** [x > 0] holds exactly for the positive finite values and Infinity. *)
Lemma gt_zero_cases (t : number) :
  gt t zero = true ↔ (∃ q, t = Num q ∧ 0 < q) ∨ t = Infinity.
Proof.
  destruct t as [| |q|]; cbn.
  - split; [discriminate|]. intros [(q & ? & _)|?]; discriminate.
  - split; [discriminate|]. intros [(q & ? & _)|?]; discriminate.
  - rewrite negb_true_iff, Qle_bool_false. split.
    + intros H. left. by exists q.
    + intros [(q' & [= ->] & H)|?]; [done|discriminate].
  - split; [by right|done].
Qed.

Lemma lt_le_trans (a b c : number) :
  lt a b = true → le b c = true → lt a c = true.
Proof.
  destruct a as [| |x|], b as [| |y|], c as [| |z|]; cbn;
    try discriminate; try reflexivity.
  rewrite !negb_true_iff, !Qle_bool_false, Qle_bool_iff. intros. lra.
Qed.

(** Once a sum is NaN it stays NaN. *)
Lemma fold_add_NaN (l : list number) : fold_left add l NaN = NaN.
Proof. induction l as [|x l IH]; [done|]. cbn. apply IH. Qed.

Lemma fold_add_In_NaN (l : list number) (a : number) :
  In NaN l → fold_left add l a = NaN.
Proof.
  revert a. induction l as [|x l IH]; intros a; [by intros []|].
  intros [->|H]; cbn.
  - assert (add a NaN = NaN) as -> by (by destruct a). apply fold_add_NaN.
  - by apply IH.
Qed.

End NumberFacts.

(** The monotonicity facts used for the sums of [compute]. *)
Create HintDb jsnumber.
#[export] Hint Resolve le_add_mono le_add_r le_zero_add : jsnumber.

(* ===================================================================== *)
(** ** List facts *)
(* ===================================================================== *)

Section ListFacts.

Context {A B : Type}.

Lemma filter_nil_iff (f : A → bool) (l : list A) :
  List.filter f l = [] ↔ ∀ x, In x l → f x = false.
Proof.
  induction l as [|x l IH]; cbn.
  - split; [by intros _ ? []|done].
  - destruct (f x) eqn:E.
    + split; [discriminate|]. intros H. specialize (H x (or_introl eq_refl)).
      congruence.
    + rewrite IH. split.
      * intros H y [<-|Hy]; [done|by apply H].
      * intros H y Hy. apply H. by right.
Qed.

(** In a list whose images under [f] are pairwise distinct, at most one
    element is sent to a given value. *)
Lemma NoDup_map_filter_le_1 (f : A → B) (P : A → bool) (a : B) (l : list A) :
  NoDup (map f l) →
  (∀ x, In x l → P x = true → f x = a) →
  length (List.filter P l) ≤ 1.
Proof.
  induction l as [|x l IH]; cbn; [lia|].
  intros Hnd Ha. apply NoDup_cons in Hnd as [Hx Hnd].
  destruct (P x) eqn:E.
  - assert (List.filter P l = []) as ->; [|cbn; lia].
    apply filter_nil_iff. intros y Hy.
    destruct (P y) eqn:Ey; [|done]. exfalso. apply Hx.
    rewrite (Ha x (or_introl eq_refl) E).
    rewrite <- (Ha y (or_intror Hy) Ey).
    apply list_elem_of_In, in_map, Hy.
  - apply IH; [done|]. intros y Hy. apply Ha. by right.
Qed.

Lemma Forall2_map_r (P : A → B → Prop) (f : A → B) (l : list A) :
  (∀ x, In x l → P x (f x)) → Forall2 P l (map f l).
Proof.
  induction l as [|x l IH]; cbn; intros H; constructor.
  - apply H. by left.
  - apply IH. intros y Hy. apply H. by right.
Qed.

Lemma filter_length_mono (f g : A → bool) (l : list A) :
  (∀ x, In x l → f x = true → g x = true) →
  length (List.filter f l) ≤ length (List.filter g l).
Proof.
  induction l as [|x l IH]; cbn; intros H; [lia|].
  assert (length (List.filter f l) ≤ length (List.filter g l)) as Hl.
  { apply IH. intros y Hy. apply H. by right. }
  destruct (f x) eqn:E.
  - rewrite (H x (or_introl eq_refl) E). cbn. lia.
  - destruct (g x); cbn; lia.
Qed.

Lemma filter_filter_andb (f g : A → bool) (l : list A) :
  List.filter g (List.filter f l) = List.filter (fun x => f x && g x) l.
Proof.
  induction l as [|x l IH]; [done|]. cbn.
  destruct (f x); cbn; [|done]. destruct (g x); by rewrite IH.
Qed.

Lemma filter_all_true (f : A → bool) (l : list A) :
  (∀ x, In x l → f x = true) → List.filter f l = l.
Proof.
  induction l as [|x l IH]; intros H; [done|]. cbn.
  rewrite (H x (or_introl eq_refl)). f_equal. apply IH.
  intros y Hy. apply H. by right.
Qed.

End ListFacts.

(* ===================================================================== *)
(** ** Properties of CumulativeAdShift *)
(* ===================================================================== *)

Section CumulativeAdShiftProperties.

Import CumulativeAdShift.

Variable toClientRect : list number → ClientRect.
Variable overlaps : ClientRect → ClientRect → bool.
Variable isAdIframe : IFrameElement → bool.
Variable isImplTag : string → bool.
Variable getScriptUrl : TraceEvent → Outcome (option string).
Variable computeLogNormalScore : ScoreOptions → number → number.
Variable toLocaleString : number → string.

Local Abbreviation isAdShift := (isAdShift toClientRect overlaps).
Local Abbreviation computeStep := (computeStep toClientRect overlaps).
Local Abbreviation computeFrom := (computeFrom toClientRect overlaps).
Local Abbreviation compute := (compute toClientRect overlaps).
Local Abbreviation isTagLoad := (isTagLoad isImplTag getScriptUrl).
Local Abbreviation findTagLoad := (findTagLoad isImplTag getScriptUrl).
Local Abbreviation tagLoadTs := (tagLoadTs isImplTag getScriptUrl).
Local Abbreviation audit :=
  (audit toClientRect overlaps isAdIframe isImplTag getScriptUrl
     computeLogNormalScore toLocaleString).

(** *** isAdShift *)

Lemma eventData_Some (e : TraceEvent) (d : EventData) :
  eventData e = Some d ↔ ∃ a, args e = Some a ∧ data a = Some d.
Proof.
  unfold eventData. destruct (args e) as [a|].
  - split; [intros H; by exists a|]. by intros (a' & [= <-] & H).
  - split; [discriminate|]. by intros (a' & ? & _).
Qed.

Lemma eventData_None (e : TraceEvent) :
  eventData e = None ↔
  args e = None ∨ ∃ a, args e = Some a ∧ data a = None.
Proof.
  unfold eventData. destruct (args e) as [a|].
  - split; [intros H; right; by exists a|].
    intros [?|(a' & [= <-] & H)]; [discriminate|done].
  - split; [by left|done].
Qed.

(** C6: [isAdShift] answers true exactly when the event has [args.data]
    and the old rectangle of one of its impacted nodes overlaps the client
    rectangle of one of the ad iframes.  (In particular an event without
    [args] or without [args.data] is never an ad shift.) *)
Theorem isAdShift_iff (shiftEvent : TraceEvent) (ads : list IFrameElement) :
  isAdShift shiftEvent ads = true ↔
  ∃ a d ad node,
    args shiftEvent = Some a ∧ data a = Some d ∧
    In ad ads ∧ In node (default [] (impacted_nodes d)) ∧
    overlaps (toClientRect (default [] (old_rect node))) (clientRect ad)
      = true.
Proof.
  unfold CumulativeAdShift.isAdShift.
  destruct (eventData shiftEvent) as [d|] eqn:Hd.
  - apply eventData_Some in Hd as (a & Ha & Hda).
    rewrite existsb_exists. split.
    + intros (ad & Hin & Hex). apply existsb_exists in Hex as (node & Hn & Ho).
      by exists a, d, ad, node.
    + intros (a' & d' & ad & node & Ha' & Hd' & Hin & Hn & Ho).
      assert (a' = a) as -> by congruence.
      assert (d' = d) as -> by congruence.
      exists ad. split; [done|]. apply existsb_exists. by exists node.
  - split; [discriminate|].
    intros (a & d & _ & _ & Ha & Hda & _).
    assert (eventData shiftEvent = Some d) as Hs
      by (apply eventData_Some; by exists a).
    congruence.
Qed.

Lemma isAdShift_no_data (shiftEvent : TraceEvent) (ads : list IFrameElement) :
  eventData shiftEvent = None → isAdShift shiftEvent ads = false.
Proof. unfold CumulativeAdShift.isAdShift. by intros ->. Qed.

(** *** audit: applicability *)

(** The search for the tag-load event completes when [getScriptUrl]
    throws on no event of the trace. *)
Lemma tagLoadTs_returns (traceEvents : list TraceEvent) :
  (∀ e, In e traceEvents → ∃ u, getScriptUrl e = Returns u) →
  ∃ t, tagLoadTs traceEvents = Returns t.
Proof.
  unfold CumulativeAdShift.tagLoadTs.
  induction traceEvents as [|e l IH]; intros H; cbn; [by eexists|].
  unfold CumulativeAdShift.isTagLoad.
  destruct (H e (or_introl eq_refl)) as [u ->].
  destruct (isImplTag (orEmpty u)); [by eexists|].
  apply IH. intros x Hx. apply H. by right.
Qed.

(** C7 (amended): when the trace has no event named LayoutShift the audit
    returns the not-applicable result NoLayoutShifts; when no iframe
    element is classified as an ad iframe and the search for the tag-load
    event completes, it returns a not-applicable result too (NoAdRendered
    when there are layout shifts).  No score is computed in either
    case. *)
Theorem audit_not_applicable (traceEvents : list TraceEvent)
    (IFrameElements : list IFrameElement) (options : ScoreOptions) :
  (∀ e, In e traceEvents → name e ≠ "LayoutShift") ∨
  ((∀ f, In f IFrameElements → isAdIframe f = false) ∧
   ∃ t, tagLoadTs traceEvents = Returns t) →
  audit traceEvents IFrameElements options =
    Returns
      (NotApplicable
         (if forallb (fun e => negb (isLayoutShift e)) traceEvents
          then NoLayoutShifts else NoAdRendered)).
Proof.
  intros H. unfold CumulativeAdShift.audit.
  destruct (List.filter isLayoutShift traceEvents) as [|e0 shifts] eqn:Hs.
  - assert (forallb (fun e => negb (isLayoutShift e)) traceEvents = true)
      as ->; [|done].
    apply forallb_forall. intros e He.
    by rewrite (proj1 (filter_nil_iff _ _) Hs e He).
  - assert (forallb (fun e => negb (isLayoutShift e)) traceEvents = false)
      as Hf.
    { destruct (forallb _ traceEvents) eqn:E; [|done].
      assert (In e0 (List.filter isLayoutShift traceEvents)) as Hin
        by (rewrite Hs; by left).
      apply filter_In in Hin as [Hin He0].
      rewrite forallb_forall in E. specialize (E e0 Hin).
      by rewrite He0 in E. }
    rewrite Hf. destruct H as [H|[H [t Ht]]].
    + exfalso.
      assert (In e0 (List.filter isLayoutShift traceEvents)) as Hin
        by (rewrite Hs; by left).
      apply filter_In in Hin as [Hin He0].
      apply (H e0 Hin). unfold isLayoutShift in He0.
      by apply String.eqb_eq in He0.
    + rewrite Ht. by rewrite (proj2 (filter_nil_iff _ _) H).
Qed.

(** *** compute: counters *)

Lemma counted_qualifies (e : TraceEvent) :
  qualifies e = match counted e with Some _ => true | None => false end.
Proof.
  unfold qualifies, counted. destruct (eventData e) as [d|]; [|done].
  by destruct (truthy (is_main_frame d)), (truthy (had_recent_input d)).
Qed.

Lemma computeStep_skip (ads : list IFrameElement) (t : number)
    (acc : Details) (e : TraceEvent) :
  qualifies e = false → computeStep ads t acc e = acc.
Proof.
  rewrite counted_qualifies. unfold CumulativeAdShift.computeStep.
  by destruct (counted e).
Qed.

Lemma computeStep_counters (ads : list IFrameElement) (t : number)
    (acc : Details) (e : TraceEvent) :
  countersOrdered acc → countersOrdered (computeStep ads t acc e).
Proof.
  unfold countersOrdered, CumulativeAdShift.computeStep. intros [H1 H2].
  destruct (counted e); [|done].
  destruct (isAdShift e ads); [destruct (lt (ts e) t)|]; cbn; lia.
Qed.

Lemma computeStep_numShifts (ads : list IFrameElement) (t : number)
    (acc : Details) (e : TraceEvent) :
  numShifts (computeStep ads t acc e) =
  if qualifies e then S (numShifts acc) else numShifts acc.
Proof.
  rewrite counted_qualifies. unfold CumulativeAdShift.computeStep.
  destruct (counted e); [|done].
  by destruct (isAdShift e ads); [destruct (lt (ts e) t)|].
Qed.

Lemma computeStep_sums (ads : list IFrameElement) (t : number)
    (acc : Details) (e : TraceEvent) :
  (∀ d, counted e = Some d → ge (ofOptional (score d)) zero = true) →
  sumsOrdered acc → sumsOrdered (computeStep ads t acc e).
Proof.
  unfold sumsOrdered, CumulativeAdShift.computeStep. intros Hs (H0 & H1 & H2).
  destruct (counted e) as [d|]; [|done].
  specialize (Hs d eq_refl). unfold ge in Hs.
  assert (le zero (cumulativeAdShift acc) = true) as H0'.
  { destruct (cumulativePreImplTagAdShift acc), (cumulativeAdShift acc);
      cbn in *; try done.
    apply Qle_bool_iff in H0, H1. apply Qle_bool_iff. lra. }
  destruct (isAdShift e ads); [destruct (lt (ts e) t)|]; cbn -[le add zero];
    repeat split; auto with jsnumber.
Qed.

Lemma computeFrom_filter (ads : list IFrameElement) (t : number)
    (events : list TraceEvent) (acc : Details) :
  computeFrom acc events ads t =
  computeFrom acc (List.filter qualifies events) ads t.
Proof.
  unfold CumulativeAdShift.computeFrom.
  revert acc. induction events as [|e events IH]; intros acc; [done|].
  cbn. destruct (qualifies e) eqn:E; cbn.
  - apply IH.
  - rewrite computeStep_skip by done. apply IH.
Qed.

Lemma computeFrom_counters (ads : list IFrameElement) (t : number)
    (events : list TraceEvent) (acc : Details) :
  countersOrdered acc → countersOrdered (computeFrom acc events ads t).
Proof.
  unfold CumulativeAdShift.computeFrom.
  revert acc. induction events as [|e events IH]; intros acc H; [done|].
  cbn. apply IH. by apply computeStep_counters.
Qed.

Lemma computeFrom_numShifts (ads : list IFrameElement) (t : number)
    (events : list TraceEvent) (acc : Details) :
  numShifts (computeFrom acc events ads t) =
  numShifts acc + length (List.filter qualifies events).
Proof.
  unfold CumulativeAdShift.computeFrom.
  revert acc. induction events as [|e events IH]; intros acc; cbn; [lia|].
  rewrite IH, computeStep_numShifts.
  destruct (qualifies e); cbn; lia.
Qed.

Lemma computeFrom_sums (ads : list IFrameElement) (t : number)
    (events : list TraceEvent) (acc : Details) :
  (∀ e d, In e events → counted e = Some d →
          ge (ofOptional (score d)) zero = true) →
  sumsOrdered acc → sumsOrdered (computeFrom acc events ads t).
Proof.
  unfold CumulativeAdShift.computeFrom.
  revert acc. induction events as [|e events IH]; intros acc Hs H; [done|].
  cbn. apply IH.
  - intros e' d Hin. apply Hs. by right.
  - apply computeStep_sums; [|done]. intros d. apply Hs. by left.
Qed.

(** C8: the counters of [compute] are ordered,
    numPreImplTagAdShifts ≤ numAdShifts ≤ numShifts; the result only
    depends on the events flagged as main-frame and without recent input
    (the others change no counter and no sum) and numShifts counts exactly
    those; and when the score of every counted event is at least zero the
    sums are ordered the same way. *)
Theorem compute_ordered (shiftEvents : list TraceEvent)
    (ads : list IFrameElement) (tagLoadTs : number) :
  let r := compute shiftEvents ads tagLoadTs in
  (numPreImplTagAdShifts r ≤ numAdShifts r ∧ numAdShifts r ≤ numShifts r) ∧
  r = compute (List.filter qualifies shiftEvents) ads tagLoadTs ∧
  numShifts r = length (List.filter qualifies shiftEvents) ∧
  ((∀ e d, In e shiftEvents → counted e = Some d →
           ge (ofOptional (score d)) zero = true) →
   le (cumulativePreImplTagAdShift r) (cumulativeAdShift r) = true ∧
   le (cumulativeAdShift r) (cumulativeShift r) = true).
Proof.
  cbn zeta. unfold CumulativeAdShift.compute. repeat split.
  - apply computeFrom_counters. unfold countersOrdered. cbn. lia.
  - apply computeFrom_counters. unfold countersOrdered. cbn. lia.
  - apply computeFrom_filter.
  - by rewrite computeFrom_numShifts.
  - by apply computeFrom_sums.
  - by apply computeFrom_sums.
Qed.

(** *** audit: no implementation tag in the trace *)

Lemma findTagLoad_no_tag (traceEvents : list TraceEvent)
    (found : option TraceEvent) :
  (∀ e, In e traceEvents → isTagLoad e ≠ Returns true) →
  findTagLoad traceEvents = Returns found → found = None.
Proof.
  induction traceEvents as [|e l IH]; cbn; intros H.
  - by intros [= <-].
  - pose proof (H e (or_introl eq_refl)) as He.
    destruct (isTagLoad e) as [[|]|err]; [done| |discriminate].
    apply IH. intros x Hx. apply H. by right.
Qed.

Lemma tagLoadTs_no_tag (traceEvents : list TraceEvent) (t : number) :
  (∀ e, In e traceEvents → isTagLoad e ≠ Returns true) →
  tagLoadTs traceEvents = Returns t → t = Infinity.
Proof.
  unfold CumulativeAdShift.tagLoadTs. intros H.
  destruct (findTagLoad traceEvents) as [found|err] eqn:E; [|discriminate].
  rewrite (findTagLoad_no_tag _ _ H E). by intros [= <-].
Qed.

(** *** compute: closed form *)

Local Abbreviation countedAdShift :=
  (countedAdShift toClientRect overlaps).
Local Abbreviation countedPreTagAdShift :=
  (countedPreTagAdShift toClientRect overlaps).

Lemma counted_Some (e : TraceEvent) (d : EventData) :
  counted e = Some d →
  qualifies e = true ∧ eventData e = Some d ∧
  eventScore e = ofOptional (score d).
Proof.
  intros H. rewrite counted_qualifies, H. split; [done|].
  unfold counted in H. unfold eventScore.
  destruct (eventData e) as [d'|]; [|done].
  destruct (negb _ || _); [done|]. by injection H as ->.
Qed.

Lemma counted_None (e : TraceEvent) :
  counted e = None → qualifies e = false.
Proof. intros H. by rewrite counted_qualifies, H. Qed.

(** What the loop of [compute] adds to an accumulator: each counter grows
    by the number of events of its kind, each sum by their scores, in
    order. *)
Lemma computeFrom_closed_form (ads : list IFrameElement) (t : number)
    (events : list TraceEvent) (acc : Details) :
  computeFrom acc events ads t =
  {| cumulativeShift :=
       fold_left add (map eventScore (List.filter qualifies events))
         (cumulativeShift acc);
     numShifts := numShifts acc + length (List.filter qualifies events);
     cumulativeAdShift :=
       fold_left add
         (map eventScore (List.filter (countedAdShift ads) events))
         (cumulativeAdShift acc);
     numAdShifts :=
       numAdShifts acc + length (List.filter (countedAdShift ads) events);
     cumulativePreImplTagAdShift :=
       fold_left add
         (map eventScore (List.filter (countedPreTagAdShift ads t) events))
         (cumulativePreImplTagAdShift acc);
     numPreImplTagAdShifts :=
       numPreImplTagAdShifts acc +
       length (List.filter (countedPreTagAdShift ads t) events) |}.
Proof.
  unfold CumulativeAdShift.computeFrom.
  revert acc. induction events as [|e events IH]; intros acc.
  - destruct acc; cbn. f_equal; lia.
  - cbn [fold_left]. rewrite IH. clear IH.
    unfold CumulativeAdShift.computeStep,
      CumulativeAdShift.countedPreTagAdShift,
      CumulativeAdShift.countedAdShift.
    cbn [List.filter].
    destruct (counted e) as [d|] eqn:Hc.
    + apply counted_Some in Hc as (-> & _ & Hs).
      destruct (isAdShift e ads), (lt (ts e) t); cbn; rewrite ?Hs;
        f_equal; lia.
    + apply counted_None in Hc as ->. cbn. done.
Qed.

(** *** audit: no implementation tag in the trace *)

(** C9 (amended): when no trace event has a script URL classified as an
    implementation tag, the tag-load timestamp of the audit is Infinity,
    so the pre-tag-load shifts are exactly the ad shifts whose timestamp
    is below Infinity: numPreImplTagAdShifts counts them and
    cumulativePreImplTagAdShift adds their scores.  When every counted ad
    shift has such a timestamp, numPreImplTagAdShifts = numAdShifts and
    cumulativePreImplTagAdShift = cumulativeAdShift. *)
Theorem audit_no_tag_details (traceEvents : list TraceEvent)
    (IFrameElements : list IFrameElement) (options : ScoreOptions)
    (p : Product) :
  (∀ e, In e traceEvents → isTagLoad e ≠ Returns true) →
  audit traceEvents IFrameElements options = Returns (Applicable p) →
  let shiftEvents := List.filter isLayoutShift traceEvents in
  let ads := List.filter isAdIframe IFrameElements in
  let adShifts :=
    List.filter (fun e => qualifies e && isAdShift e ads) shiftEvents in
  let below := List.filter (fun e => lt (ts e) Infinity) adShifts in
  tagLoadTs traceEvents = Returns Infinity ∧
  numAdShifts (details p) = length adShifts ∧
  numPreImplTagAdShifts (details p) = length below ∧
  cumulativeAdShift (details p) = sumScores adShifts ∧
  cumulativePreImplTagAdShift (details p) = sumScores below ∧
  ((∀ e, In e adShifts → lt (ts e) Infinity = true) →
   numPreImplTagAdShifts (details p) = numAdShifts (details p) ∧
   cumulativePreImplTagAdShift (details p) = cumulativeAdShift (details p)).
Proof.
  intros Htag. unfold CumulativeAdShift.audit. cbn zeta.
  destruct (List.filter isLayoutShift traceEvents) as [|e0 shifts] eqn:Hs;
    [discriminate|].
  destruct (tagLoadTs traceEvents) as [t|err] eqn:Ht; [|discriminate].
  pose proof (tagLoadTs_no_tag _ _ Htag Ht) as ->.
  destruct (List.filter isAdIframe IFrameElements) as [|a0 ads] eqn:Ha;
    [discriminate|].
  intros [= <-]. cbn [details]. split; [done|].
  unfold CumulativeAdShift.compute. rewrite computeFrom_closed_form.
  cbn [numAdShifts numPreImplTagAdShifts cumulativeAdShift
       cumulativePreImplTagAdShift initial].
  assert (List.filter (countedPreTagAdShift (a0 :: ads) Infinity)
            (e0 :: shifts) =
          List.filter (fun e => lt (ts e) Infinity)
            (List.filter (countedAdShift (a0 :: ads)) (e0 :: shifts)))
    as -> by (by rewrite filter_filter_andb).
  change (countedAdShift (a0 :: ads))
    with (fun e => qualifies e && isAdShift e (a0 :: ads)).
  unfold sumScores.
  split; [done|]. split; [done|]. split; [done|]. split; [done|].
  intros Hbelow. by rewrite (filter_all_true _ _ Hbelow).
Qed.

Lemma isAdShift_nil (shiftEvent : TraceEvent) :
  isAdShift shiftEvent [] = false.
Proof.
  unfold CumulativeAdShift.isAdShift.
  by destruct (eventData shiftEvent).
Qed.

(** X1: an event is an ad shift for the concatenation of two ad lists
    exactly when it is one for either list; no event is an ad shift for
    the empty ad list. *)
Theorem isAdShift_app (shiftEvent : TraceEvent)
    (ads1 ads2 : list IFrameElement) :
  isAdShift shiftEvent (ads1 ++ ads2) =
    isAdShift shiftEvent ads1 || isAdShift shiftEvent ads2 ∧
  isAdShift shiftEvent [] = false.
Proof.
  unfold CumulativeAdShift.isAdShift.
  destruct (eventData shiftEvent) as [d|]; [|done].
  by rewrite existsb_app.
Qed.

Lemma existsb_const_false {A : Type} (l : list A) :
  existsb (fun _ => false) l = false.
Proof. induction l as [|x l IH]; [done|]. cbn. apply IH. Qed.

(** X2: an event whose [impacted_nodes] is absent or empty is not an ad
    shift, whatever the ads are. *)
Theorem isAdShift_no_nodes (shiftEvent : TraceEvent)
    (ads : list IFrameElement) :
  (∀ d, eventData shiftEvent = Some d →
        impacted_nodes d = None ∨ impacted_nodes d = Some []) →
  isAdShift shiftEvent ads = false.
Proof.
  intros H. unfold CumulativeAdShift.isAdShift.
  destruct (eventData shiftEvent) as [d|]; [|done].
  destruct (H d eq_refl) as [-> | ->]; cbn; apply existsb_const_false.
Qed.

(** X3: the counters of [compute] count exactly: numShifts the events
    flagged main-frame and without recent input, numAdShifts those of
    them that are ad shifts, numPreImplTagAdShifts those of the ad shifts
    whose timestamp is below the tag-load timestamp. *)
Theorem compute_counters_exact (shiftEvents : list TraceEvent)
    (ads : list IFrameElement) (tagLoadTs : number) :
  let r := compute shiftEvents ads tagLoadTs in
  numShifts r = length (List.filter qualifies shiftEvents) ∧
  numAdShifts r =
    length (List.filter (fun e => qualifies e && isAdShift e ads)
              shiftEvents) ∧
  numPreImplTagAdShifts r =
    length (List.filter
              (fun e => qualifies e && isAdShift e ads &&
                        lt (ts e) tagLoadTs)
              shiftEvents).
Proof.
  cbn zeta. unfold CumulativeAdShift.compute.
  rewrite computeFrom_closed_form. cbn. done.
Qed.

(** X4: the sums of [compute] are the scores of the same three families
    of events, added from zero in trace order; an absent score counts as
    NaN. *)
Theorem compute_sums_exact (shiftEvents : list TraceEvent)
    (ads : list IFrameElement) (tagLoadTs : number) :
  let r := compute shiftEvents ads tagLoadTs in
  cumulativeShift r = sumScores (List.filter qualifies shiftEvents) ∧
  cumulativeAdShift r =
    sumScores (List.filter (fun e => qualifies e && isAdShift e ads)
                 shiftEvents) ∧
  cumulativePreImplTagAdShift r =
    sumScores (List.filter
                 (fun e => qualifies e && isAdShift e ads &&
                           lt (ts e) tagLoadTs)
                 shiftEvents).
Proof.
  cbn zeta. unfold CumulativeAdShift.compute.
  rewrite computeFrom_closed_form. cbn. done.
Qed.

(** X5: the counters of [compute] are additive over the concatenation of
    two event lists. *)
Theorem compute_app_counters (events1 events2 : list TraceEvent)
    (ads : list IFrameElement) (tagLoadTs : number) :
  let r := compute (events1 ++ events2) ads tagLoadTs in
  let r1 := compute events1 ads tagLoadTs in
  let r2 := compute events2 ads tagLoadTs in
  numShifts r = numShifts r1 + numShifts r2 ∧
  numAdShifts r = numAdShifts r1 + numAdShifts r2 ∧
  numPreImplTagAdShifts r =
    numPreImplTagAdShifts r1 + numPreImplTagAdShifts r2.
Proof.
  cbn zeta. unfold CumulativeAdShift.compute.
  rewrite !computeFrom_closed_form. cbn.
  by rewrite !List.filter_app, !length_app.
Qed.

(** X6: without ads, [compute] counts no ad shift: both ad counters are 0
    and both ad sums are zero, while the shifts are still counted. *)
Theorem compute_no_ads (shiftEvents : list TraceEvent)
    (tagLoadTs : number) :
  let r := compute shiftEvents [] tagLoadTs in
  numAdShifts r = 0 ∧ numPreImplTagAdShifts r = 0 ∧
  cumulativeAdShift r = zero ∧ cumulativePreImplTagAdShift r = zero ∧
  numShifts r = length (List.filter qualifies shiftEvents).
Proof.
  cbn zeta. unfold CumulativeAdShift.compute.
  rewrite computeFrom_closed_form. cbn.
  assert (List.filter (countedAdShift []) shiftEvents = []) as ->.
  { apply filter_nil_iff. intros e _.
    unfold CumulativeAdShift.countedAdShift.
    rewrite isAdShift_nil. apply andb_false_r. }
  assert (List.filter (countedPreTagAdShift [] tagLoadTs) shiftEvents = [])
    as ->.
  { apply filter_nil_iff. intros e _.
    unfold CumulativeAdShift.countedPreTagAdShift,
      CumulativeAdShift.countedAdShift.
    rewrite isAdShift_nil. by rewrite andb_false_r. }
  done.
Qed.

(** X7: a later tag load never lowers the number of pre-tag-load ad
    shifts: numPreImplTagAdShifts is monotone in the tag-load timestamp. *)
Theorem compute_pre_tag_monotone (shiftEvents : list TraceEvent)
    (ads : list IFrameElement) (t1 t2 : number) :
  le t1 t2 = true →
  numPreImplTagAdShifts (compute shiftEvents ads t1) ≤
  numPreImplTagAdShifts (compute shiftEvents ads t2).
Proof.
  intros Hle. unfold CumulativeAdShift.compute.
  rewrite !computeFrom_closed_form. cbn.
  apply filter_length_mono. intros e _.
  unfold CumulativeAdShift.countedPreTagAdShift.
  rewrite !andb_true_iff. intros [Ha Hlt]. split; [done|].
  by apply (lt_le_trans _ t1).
Qed.

(** X8: when no event has a timestamp below the tag-load timestamp (as
    when that timestamp is NaN), no ad shift is a pre-tag-load shift: the
    counter is 0 and the sum is zero. *)
Theorem compute_none_before_tag (shiftEvents : list TraceEvent)
    (ads : list IFrameElement) (tagLoadTs : number) :
  (∀ e, In e shiftEvents → lt (ts e) tagLoadTs = false) →
  numPreImplTagAdShifts (compute shiftEvents ads tagLoadTs) = 0 ∧
  cumulativePreImplTagAdShift (compute shiftEvents ads tagLoadTs) = zero.
Proof.
  intros H. unfold CumulativeAdShift.compute.
  rewrite computeFrom_closed_form. cbn.
  assert (List.filter (countedPreTagAdShift ads tagLoadTs) shiftEvents = [])
    as ->; [|done].
  apply filter_nil_iff. intros e He.
  unfold CumulativeAdShift.countedPreTagAdShift.
  rewrite (H e He). apply andb_false_r.
Qed.

(** X9: a counted event without a score (or with the score NaN) turns
    cumulativeShift into NaN, and cumulativeAdShift too when the event is
    an ad shift. *)
Theorem compute_missing_score (shiftEvents : list TraceEvent)
    (ads : list IFrameElement) (tagLoadTs : number)
    (e : TraceEvent) (d : EventData) :
  In e shiftEvents → counted e = Some d → ofOptional (score d) = NaN →
  cumulativeShift (compute shiftEvents ads tagLoadTs) = NaN ∧
  (isAdShift e ads = true →
   cumulativeAdShift (compute shiftEvents ads tagLoadTs) = NaN).
Proof.
  intros Hin Hc Hs. apply counted_Some in Hc as (Hq & _ & He).
  rewrite Hs in He.
  unfold CumulativeAdShift.compute. rewrite computeFrom_closed_form. cbn.
  split.
  - apply fold_add_In_NaN. rewrite <- He.
    apply in_map, filter_In. done.
  - intros Ha. apply fold_add_In_NaN. rewrite <- He.
    apply in_map, filter_In. split; [done|].
    unfold CumulativeAdShift.countedAdShift. by rewrite Hq, Ha.
Qed.

(** *** audit: applicability, tag load, raw score *)



(** X12: when every counted layout shift of the trace has a score of at
    least zero, the raw score that the audit reports and hands to the
    score curve is at least zero; in particular it is not NaN. *)
Theorem audit_raw_score_nonneg (traceEvents : list TraceEvent)
    (IFrameElements : list IFrameElement) (options : ScoreOptions)
    (p : Product) :
  (∀ e d, In e traceEvents → name e = "LayoutShift" →
          counted e = Some d → ge (ofOptional (score d)) zero = true) →
  audit traceEvents IFrameElements options = Returns (Applicable p) →
  le zero (numericValue p) = true ∧
  numericValue p = cumulativeAdShift (details p) ∧
  productScore p = computeLogNormalScore options (numericValue p).
Proof.
  intros Hs. unfold CumulativeAdShift.audit.
  destruct (List.filter isLayoutShift traceEvents) as [|e0 shifts] eqn:Hf;
    [discriminate|].
  destruct (tagLoadTs traceEvents) as [t|err]; [|discriminate].
  destruct (List.filter isAdIframe IFrameElements) as [|a0 ads] eqn:Ha;
    [discriminate|].
  intros [= <-]. cbn [numericValue details productScore].
  split; [|done].
  assert (sumsOrdered (compute (e0 :: shifts) (a0 :: ads) t))
    as (H0 & H1 & _).
  { apply computeFrom_sums; [|done].
    intros e d Hin. rewrite <- Hf in Hin.
    apply filter_In in Hin as [Hin Hn].
    apply Hs; [done|]. by apply String.eqb_eq. }
  revert H0 H1.
  destruct (cumulativePreImplTagAdShift _), (cumulativeAdShift _);
    cbn; try done.
  rewrite !Qle_bool_iff. intros. lra.
Qed.

End CumulativeAdShiftProperties.

(* ===================================================================== *)
(** ** Properties of FirstAdPaint *)
(* ===================================================================== *)

Section FirstAdPaintProperties.

Import FirstAdPaint.

Variable computeLogNormalScore : number → number → number → number.
Variable Artifacts : Type.
Variable requestAdPaintTime : Artifacts → number.
Variable formatDisplayValue : number → string.

Local Abbreviation auditTiming :=
  (auditTiming computeLogNormalScore formatDisplayValue).
Local Abbreviation audit :=
  (audit computeLogNormalScore Artifacts requestAdPaintTime
     formatDisplayValue).

(** The guard [!(timing > 0)] holds exactly for NaN and for the values at
    most zero. *)
Lemma guard_iff (timing : number) :
  negb (gt timing zero) = true ↔ timing = NaN ∨ le timing zero = true.
Proof.
  destruct timing as [| |q|]; cbn.
  - split; [by left|done].
  - split; [by right|done].
  - rewrite negb_involutive. split; [by right|].
    by intros [?|?].
  - split; [done|]. by intros [?|?].
Qed.

Lemma auditTiming_rejected (timing : number) (w : World) :
  negb (gt timing zero) = true →
  auditTiming timing w =
    (NotApplicable NoAdRendered,
     {| LighthouseRunWarnings := LighthouseRunWarnings w ++ [WarnNoAdRendered];
        scoreCalls := scoreCalls w |}).
Proof. unfold FirstAdPaint.auditTiming. by intros ->. Qed.

Lemma auditTiming_scored (timing : number) (w : World) :
  gt timing zero = true →
  auditTiming timing w =
    (Applicable
       {| numericValue := mul timing (Num (1 # 1000)%Q);
          productScore :=
            (let s := computeLogNormalScore timing PODR MEDIAN in
             if ge s (Num (9 # 10)%Q) then one else s);
          displayValue := formatDisplayValue timing |},
     {| LighthouseRunWarnings := LighthouseRunWarnings w;
        scoreCalls := scoreCalls w ++
          [{| measuredValue := timing; diminishingReturnsValue := PODR;
              medianValue := MEDIAN |}] |}).
Proof. unfold FirstAdPaint.auditTiming. by intros ->. Qed.

(** C3: for a timing that passes the guard [timing > 0], the audit calls
    the score curve once, on the timing, and its score is exactly 1 when
    the computed score is at least 0.9 and the computed score itself
    otherwise.  The curve is a parameter: the clamp is the audit's. *)
Theorem audit_score_clamped (artifacts : Artifacts) (w : World) :
  let timing := requestAdPaintTime artifacts in
  let computed := computeLogNormalScore timing PODR MEDIAN in
  gt timing zero = true →
  ∃ p,
    fst (audit artifacts w) = Applicable p ∧
    (ge computed (Num (9 # 10)%Q) = true → productScore p = one) ∧
    (ge computed (Num (9 # 10)%Q) = false → productScore p = computed) ∧
    scoreCalls (snd (audit artifacts w)) =
      scoreCalls w ++
        [{| measuredValue := timing; diminishingReturnsValue := PODR;
            medianValue := MEDIAN |}].
Proof.
  cbn zeta. intros Hgt. unfold FirstAdPaint.audit.
  rewrite (auditTiming_scored _ w Hgt). cbn [fst snd].
  eexists. split; [reflexivity|]. cbn [productScore scoreCalls].
  repeat split; by intros ->.
Qed.

(** C4 (amended): for a timing that is NaN, zero or negative the audit
    pushes the run warning and returns the not-applicable result without
    calling the score curve; and whenever the audit calls the curve, it
    calls it on the timing, which is then strictly positive (a positive
    finite value or Infinity). *)
Theorem audit_guard (artifacts : Artifacts) (w : World) :
  let timing := requestAdPaintTime artifacts in
  (timing = NaN ∨ le timing zero = true →
   audit artifacts w =
     (NotApplicable NoAdRendered,
      {| LighthouseRunWarnings :=
           LighthouseRunWarnings w ++ [WarnNoAdRendered];
         scoreCalls := scoreCalls w |})) ∧
  ∃ calls,
    scoreCalls (snd (audit artifacts w)) = scoreCalls w ++ calls ∧
    ∀ c, In c calls →
      measuredValue c = timing ∧ gt timing zero = true ∧
      ((∃ q, timing = Num q ∧ (0 < q)%Q) ∨ timing = Infinity).
Proof.
  cbn zeta. unfold FirstAdPaint.audit. split.
  - intros H. apply auditTiming_rejected. by apply guard_iff.
  - destruct (gt (requestAdPaintTime artifacts) zero) eqn:Hgt.
    + rewrite (auditTiming_scored _ w Hgt). cbn [snd scoreCalls].
      eexists. split; [reflexivity|].
      intros c [<-|[]]. cbn [measuredValue].
      split; [done|]. split; [done|]. by apply gt_zero_cases.
    + rewrite auditTiming_rejected by (by rewrite Hgt).
      exists []. cbn [snd scoreCalls]. rewrite app_nil_r.
      split; [done|]. by intros c [].
Qed.

(** X13: the score of the audit is never in the interval from 0.9 up to,
    but excluding, 1: a returned score that is at least 0.9 is exactly 1. *)
Theorem audit_score_gap (artifacts : Artifacts) (w w' : World)
    (p : Product) :
  audit artifacts w = (Applicable p, w') →
  ge (productScore p) (Num (9 # 10)%Q) = true →
  productScore p = one.
Proof.
  unfold FirstAdPaint.audit.
  destruct (gt (requestAdPaintTime artifacts) zero) eqn:Hgt.
  - rewrite (auditTiming_scored _ w Hgt). intros [= <- _].
    cbn [productScore]. cbv zeta.
    destruct (computeLogNormalScore (requestAdPaintTime artifacts)
                PODR MEDIAN) as [| |q|]; cbn; try done.
    destruct (Qle_bool (9 # 10) q) eqn:E; [done|].
    cbn. by rewrite E.
  - rewrite auditTiming_rejected by (by rewrite Hgt). discriminate.
Qed.

(** X14: every run of the audit appends exactly one entry to the world,
    and keeps what was there: either the timing is not above zero, the
    result is not applicable, the warning is appended and no curve call is
    made; or the timing is above zero, the result is applicable, the run
    warnings are untouched and one curve call is appended. *)
Theorem audit_effects (artifacts : Artifacts) (w : World) :
  let timing := requestAdPaintTime artifacts in
  let r := audit artifacts w in
  (gt timing zero = false ∧
   fst r = NotApplicable NoAdRendered ∧
   LighthouseRunWarnings (snd r) =
     LighthouseRunWarnings w ++ [WarnNoAdRendered] ∧
   scoreCalls (snd r) = scoreCalls w) ∨
  (gt timing zero = true ∧
   (∃ p, fst r = Applicable p) ∧
   LighthouseRunWarnings (snd r) = LighthouseRunWarnings w ∧
   scoreCalls (snd r) =
     scoreCalls w ++
       [{| measuredValue := timing; diminishingReturnsValue := PODR;
           medianValue := MEDIAN |}]).
Proof.
  cbn zeta. unfold FirstAdPaint.audit.
  destruct (gt (requestAdPaintTime artifacts) zero) eqn:Hgt.
  - right. rewrite (auditTiming_scored _ w Hgt). cbn.
    split; [done|]. split; [by eexists|done].
  - left. rewrite auditTiming_rejected by (by rewrite Hgt). done.
Qed.

End FirstAdPaintProperties.

(* ===================================================================== *)
(** ** Properties of GptBidsInParallel *)
(* ===================================================================== *)

Section GptBidsInParallelProperties.

Import GptBidsInParallel.

Variable isImplTag : string → bool.
Variable isBidRequest : NetworkRequest.t → bool.
Variable getAbbreviatedUrl : string → string.
Variable getHeaderBidder : string → option string.
Variable getCriticalGraph :
  list NetworkRequest.t → list TraceEvent → NetworkRequest.t → gset positive.
Variable DevtoolsLog : Type.
Variable requestNetworkRecords : DevtoolsLog → list NetworkRequest.t.
Variable getTimingsByRecord :
  list TraceEvent → DevtoolsLog → gmap positive NodeTiming.t.

Local Abbreviation bidderOf := (bidderOf getHeaderBidder).
Local Abbreviation rowOf := (rowOf getAbbreviatedUrl getHeaderBidder).
Local Abbreviation onCriticalGraph := (onCriticalGraph getCriticalGraph).
Local Abbreviation auditLoop :=
  (auditLoop getAbbreviatedUrl getHeaderBidder getCriticalGraph).
Local Abbreviation reportedBids :=
  (reportedBids getHeaderBidder getCriticalGraph).
Local Abbreviation bidsOf := (bidsOf isBidRequest).
Local Abbreviation tableView :=
  (tableView isBidRequest getAbbreviatedUrl getHeaderBidder getCriticalGraph).
Local Abbreviation audit :=
  (audit isImplTag isBidRequest getAbbreviatedUrl getHeaderBidder
     getCriticalGraph DevtoolsLog requestNetworkRecords getTimingsByRecord).

Implicit Types (network bids : list NetworkRequest.t).
Implicit Types (traceEvents : list TraceEvent).
Implicit Types (pubadsImpl bid : NetworkRequest.t).
Implicit Types (timings : gmap positive NodeTiming.t).
Implicit Types (seen : gset string).

(** *** The rows pushed by the loop *)

Lemma rowOf_bidder timings bid :
  TableRow.bidder (rowOf timings bid) = bidderOf bid.
Proof.
  unfold GptBidsInParallel.rowOf. by destruct (bidTiming timings bid).
Qed.

Lemma rowOf_timing timings bid :
  TableRow.startTime (rowOf timings bid) = fst (bidTiming timings bid) ∧
  TableRow.duration (rowOf timings bid) =
    sub (snd (bidTiming timings bid)) (fst (bidTiming timings bid)).
Proof.
  unfold GptBidsInParallel.rowOf. by destruct (bidTiming timings bid).
Qed.

(** The loop appends to the table one row per reported bid, in order. *)
Lemma auditLoop_rows network traceEvents pubadsImpl timings bids
    (rows : list TableRow.t) seen :
  fst (auditLoop network traceEvents pubadsImpl timings bids rows seen) =
  rows ++
    map (rowOf timings)
      (reportedBids network traceEvents pubadsImpl bids seen).
Proof.
  revert rows seen. induction bids as [|bid bids IH]; intros rows seen; cbn.
  - by rewrite app_nil_r.
  - destruct (onCriticalGraph network traceEvents pubadsImpl bid); [|apply IH].
    case_bool_decide; [apply IH|].
    rewrite IH. cbn. by rewrite <- app_assoc.
Qed.

(** A reported bid is one of the bids, its critical graph has the
    implementation tag, and its bidder was not seen before. *)
Lemma reportedBids_spec network traceEvents pubadsImpl bids seen bid :
  In bid (reportedBids network traceEvents pubadsImpl bids seen) →
  In bid bids ∧
  onCriticalGraph network traceEvents pubadsImpl bid = true ∧
  bidderOf bid ∉ seen.
Proof.
  revert seen. induction bids as [|b bids IH]; intros seen; cbn; [done|].
  destruct (onCriticalGraph network traceEvents pubadsImpl b) eqn:Hc.
  - case_bool_decide as Hs.
    + intros H. destruct (IH _ H) as (? & ? & ?). auto.
    + intros [<-|H]; [auto|].
      destruct (IH _ H) as (? & ? & Hn). repeat split; [auto|done|].
      intros Hin. apply Hn, elem_of_union. by right.
  - intros H. destruct (IH _ H) as (? & ? & ?). auto.
Qed.

(** The reported bids have pairwise distinct bidders. *)
Lemma reportedBids_NoDup network traceEvents pubadsImpl bids seen :
  NoDup (map bidderOf (reportedBids network traceEvents pubadsImpl bids seen)).
Proof.
  revert seen. induction bids as [|b bids IH]; intros seen; cbn.
  - constructor.
  - destruct (onCriticalGraph network traceEvents pubadsImpl b); [|apply IH].
    case_bool_decide as Hs; [apply IH|].
    cbn. constructor; [|apply IH].
    intros Hin. apply list_elem_of_In, in_map_iff in Hin as (b' & Hb' & Hin).
    apply reportedBids_spec in Hin as (_ & _ & Hn).
    apply Hn, elem_of_union. left. by apply elem_of_singleton.
Qed.

Lemma bidsOf_spec network pubadsImpl bid :
  In bid (bidsOf network pubadsImpl) →
  In bid network ∧ isBidRequest bid = true ∧
  NetworkRequest.frameId bid = NetworkRequest.frameId pubadsImpl.
Proof.
  unfold GptBidsInParallel.bidsOf. intros H.
  apply filter_In in H as [H Hf]. apply filter_In in H as [H Hb].
  apply bool_decide_eq_true in Hf. done.
Qed.

(** The table of a failed audit: the rows of the loop run on the bids of
    the frame of the implementation tag. *)
Lemma audit_table (devtoolsLog : DevtoolsLog) traceEvents
    (p : Product) (table : TableDetails) :
  audit devtoolsLog traceEvents = Applicable p →
  details p = Some table →
  ∃ pubadsImpl,
    List.find (fun r => isImplTag (NetworkRequest.url r))
      (requestNetworkRecords devtoolsLog) = Some pubadsImpl ∧
    items table =
      map (rowOf (getTimingsByRecord traceEvents devtoolsLog))
        (reportedBids (requestNetworkRecords devtoolsLog) traceEvents
           pubadsImpl
           (bidsOf (requestNetworkRecords devtoolsLog) pubadsImpl) ∅).
Proof.
  unfold GptBidsInParallel.audit.
  destruct (List.find _ (requestNetworkRecords devtoolsLog))
    as [pubadsImpl|]; [|discriminate].
  destruct (bidsOf (requestNetworkRecords devtoolsLog) pubadsImpl)
    as [|b0 bids] eqn:Hb; [discriminate|].
  intros [= <-]. cbn [details].
  destruct (negb _); [|discriminate].
  intros [= <-]. exists pubadsImpl. split; [done|].
  unfold makeTableDetails. cbn [items].
  unfold GptBidsInParallel.tableView. rewrite Hb.
  by rewrite auditLoop_rows.
Qed.

(** C1: the failure table of the audit has exactly one row per reported
    bid, and a bid is reported only if it is a bid request of the network
    log whose critical graph, [getCriticalGraph] over the network records
    and the trace events, contains the implementation-tag request; a bid
    whose critical graph does not contain it is not reported. *)
Theorem audit_reports_only_critical (devtoolsLog : DevtoolsLog) traceEvents
    (p : Product) (table : TableDetails) :
  audit devtoolsLog traceEvents = Applicable p →
  details p = Some table →
  let network := requestNetworkRecords devtoolsLog in
  ∃ pubadsImpl,
    List.find (fun r => isImplTag (NetworkRequest.url r)) network
      = Some pubadsImpl ∧
    let reported :=
      reportedBids network traceEvents pubadsImpl
        (bidsOf network pubadsImpl) ∅ in
    items table =
      map (rowOf (getTimingsByRecord traceEvents devtoolsLog)) reported ∧
    (∀ bid, In bid reported →
       In bid network ∧ isBidRequest bid = true ∧
       NetworkRequest.ref pubadsImpl ∈
         getCriticalGraph network traceEvents bid) ∧
    (∀ bid, NetworkRequest.ref pubadsImpl ∉
              getCriticalGraph network traceEvents bid →
            ¬ In bid reported).
Proof.
  intros Ha Hd. cbn zeta.
  destruct (audit_table _ _ _ _ Ha Hd) as (pubadsImpl & Hf & Hi).
  exists pubadsImpl. split; [done|]. split; [done|].
  assert (∀ bid,
    In bid (reportedBids (requestNetworkRecords devtoolsLog) traceEvents
              pubadsImpl
              (bidsOf (requestNetworkRecords devtoolsLog) pubadsImpl) ∅) →
    In bid (requestNetworkRecords devtoolsLog) ∧ isBidRequest bid = true ∧
    NetworkRequest.ref pubadsImpl ∈
      getCriticalGraph (requestNetworkRecords devtoolsLog) traceEvents bid)
    as Hrep.
  { intros bid Hin. apply reportedBids_spec in Hin as (Hin & Hc & _).
    apply bidsOf_spec in Hin as (Hin & Hb & _).
    unfold GptBidsInParallel.onCriticalGraph in Hc.
    apply bool_decide_eq_true in Hc. done. }
  split; [done|].
  intros bid Hn Hin. apply Hn. by apply Hrep.
Qed.

(** C5: the row of each reported bid takes its startTime from the
    simulated timing of the bid when the timing map has an entry for it,
    and from the bid's own startTime otherwise; its duration is the
    endTime of the same source minus that startTime. *)
Theorem audit_row_timing (devtoolsLog : DevtoolsLog) traceEvents
    (p : Product) (table : TableDetails) :
  audit devtoolsLog traceEvents = Applicable p →
  details p = Some table →
  let network := requestNetworkRecords devtoolsLog in
  let timings := getTimingsByRecord traceEvents devtoolsLog in
  ∃ pubadsImpl,
    List.find (fun r => isImplTag (NetworkRequest.url r)) network
      = Some pubadsImpl ∧
    Forall2
      (fun bid row =>
         match timings !! NetworkRequest.ref bid with
         | Some t =>
             TableRow.startTime row = NodeTiming.startTime t ∧
             TableRow.duration row =
               sub (NodeTiming.endTime t) (NodeTiming.startTime t)
         | None =>
             TableRow.startTime row = NetworkRequest.startTime bid ∧
             TableRow.duration row =
               sub (NetworkRequest.endTime bid) (NetworkRequest.startTime bid)
         end)
      (reportedBids network traceEvents pubadsImpl
         (bidsOf network pubadsImpl) ∅)
      (items table).
Proof.
  intros Ha Hd. cbn zeta.
  destruct (audit_table _ _ _ _ Ha Hd) as (pubadsImpl & Hf & Hi).
  exists pubadsImpl. split; [done|]. rewrite Hi.
  apply Forall2_map_r. intros bid _.
  destruct (rowOf_timing (getTimingsByRecord traceEvents devtoolsLog) bid)
    as [-> ->].
  unfold bidTiming.
  by destruct (getTimingsByRecord traceEvents devtoolsLog
                 !! NetworkRequest.ref bid).
Qed.

(** C10: the bidder names of the rows of the failure table are pairwise
    distinct; a reported bid without a recognized header bidder gets the
    empty bidder name, so at most one row has the empty name and at most
    one reported bid is unattributed. *)
Theorem audit_one_row_per_bidder (devtoolsLog : DevtoolsLog) traceEvents
    (p : Product) (table : TableDetails) :
  audit devtoolsLog traceEvents = Applicable p →
  details p = Some table →
  let network := requestNetworkRecords devtoolsLog in
  NoDup (map TableRow.bidder (items table)) ∧
  length (List.filter (fun row => String.eqb (TableRow.bidder row) "")
            (items table)) ≤ 1 ∧
  ∃ pubadsImpl,
    List.find (fun r => isImplTag (NetworkRequest.url r)) network
      = Some pubadsImpl ∧
    let reported :=
      reportedBids network traceEvents pubadsImpl
        (bidsOf network pubadsImpl) ∅ in
    (∀ bid, getHeaderBidder (NetworkRequest.url bid) = None →
            bidderOf bid = "") ∧
    length (List.filter
              (fun bid =>
                 bool_decide (getHeaderBidder (NetworkRequest.url bid) = None))
              reported) ≤ 1.
Proof.
  intros Ha Hd. cbn zeta.
  destruct (audit_table _ _ _ _ Ha Hd) as (pubadsImpl & Hf & Hi).
  pose proof (reportedBids_NoDup (requestNetworkRecords devtoolsLog)
                traceEvents pubadsImpl
                (bidsOf (requestNetworkRecords devtoolsLog) pubadsImpl) ∅)
    as Hnd.
  assert (map TableRow.bidder (items table) =
          map bidderOf
            (reportedBids (requestNetworkRecords devtoolsLog) traceEvents
               pubadsImpl
               (bidsOf (requestNetworkRecords devtoolsLog) pubadsImpl) ∅))
    as Hb.
  { rewrite Hi, map_map. apply map_ext. intros bid. apply rowOf_bidder. }
  split; [by rewrite Hb|]. split.
  - apply (NoDup_map_filter_le_1 TableRow.bidder _ ""%string).
    + by rewrite Hb.
    + intros row _ He. by apply String.eqb_eq.
  - exists pubadsImpl. split; [done|]. split.
    + intros bid Hn. unfold GptBidsInParallel.bidderOf. by rewrite Hn.
    + apply (NoDup_map_filter_le_1 bidderOf _ ""%string); [done|].
      intros bid _ Hn. apply bool_decide_eq_true in Hn.
      unfold GptBidsInParallel.bidderOf. by rewrite Hn.
Qed.

(** *** The shape of the result *)

Lemma bidsOf_In network pubadsImpl bid :
  In bid (bidsOf network pubadsImpl) ↔
  In bid network ∧ isBidRequest bid = true ∧
  NetworkRequest.frameId bid = NetworkRequest.frameId pubadsImpl.
Proof.
  split; [apply bidsOf_spec|].
  intros (Hin & Hb & Hfr). unfold GptBidsInParallel.bidsOf.
  apply filter_In. split; [by apply filter_In|].
  by apply bool_decide_eq_true.
Qed.

(** The result of an applicable audit, from the reported bids. *)
Lemma audit_product (devtoolsLog : DevtoolsLog) traceEvents (p : Product) :
  audit devtoolsLog traceEvents = Applicable p →
  ∃ pubadsImpl,
    List.find (fun r => isImplTag (NetworkRequest.url r))
      (requestNetworkRecords devtoolsLog) = Some pubadsImpl ∧
    bidsOf (requestNetworkRecords devtoolsLog) pubadsImpl ≠ [] ∧
    p = (let rows :=
           map (rowOf (getTimingsByRecord traceEvents devtoolsLog))
             (reportedBids (requestNetworkRecords devtoolsLog) traceEvents
                pubadsImpl
                (bidsOf (requestNetworkRecords devtoolsLog) pubadsImpl) ∅) in
         {| numericValue := length rows;
            productScore := if negb (Nat.eqb (length rows) 0) then zero
                            else one;
            details := if negb (Nat.eqb (length rows) 0)
                       then Some (makeTableDetails HEADINGS rows)
                       else None |}).
Proof.
  unfold GptBidsInParallel.audit.
  destruct (List.find _ (requestNetworkRecords devtoolsLog))
    as [pubadsImpl|]; [|discriminate].
  destruct (bidsOf (requestNetworkRecords devtoolsLog) pubadsImpl)
    as [|b0 bids] eqn:Hb; [discriminate|].
  intros [= <-]. exists pubadsImpl. split; [done|].
  split; [by rewrite Hb|].
  unfold GptBidsInParallel.tableView. cbv zeta.
  by rewrite auditLoop_rows.
Qed.

(** No bid is reported exactly when every bid on the critical graph has a
    bidder that was seen before. *)
Lemma reportedBids_nil_iff network traceEvents pubadsImpl bids seen :
  reportedBids network traceEvents pubadsImpl bids seen = [] ↔
  ∀ bid, In bid bids →
    onCriticalGraph network traceEvents pubadsImpl bid = true →
    bidderOf bid ∈ seen.
Proof.
  revert seen. induction bids as [|b bids IH]; intros seen; cbn.
  - split; [by intros _ ? []|done].
  - destruct (onCriticalGraph network traceEvents pubadsImpl b) eqn:Hc.
    + case_bool_decide as Hs.
      * rewrite IH. split.
        -- intros H bid [<-|Hin]; [done|by apply H].
        -- intros H bid Hin. apply H. by right.
      * split; [discriminate|]. intros H. exfalso.
        apply Hs, (H b); [by left|done].
    + rewrite IH. split.
      * intros H bid [<-|Hin] Hcb; [congruence|by apply H].
      * intros H bid Hin. apply H. by right.
Qed.

(** The bidder of a bid on the critical graph was seen before or is the
    bidder of a reported bid. *)
Lemma reportedBids_complete network traceEvents pubadsImpl bids seen bid :
  In bid bids →
  onCriticalGraph network traceEvents pubadsImpl bid = true →
  bidderOf bid ∈ seen ∨
  In (bidderOf bid)
    (map bidderOf (reportedBids network traceEvents pubadsImpl bids seen)).
Proof.
  revert seen. induction bids as [|b bids IH]; intros seen; cbn; [done|].
  intros [->|Hin] Hc.
  - rewrite Hc. case_bool_decide as Hs; [by left|]. right. by left.
  - destruct (onCriticalGraph network traceEvents pubadsImpl b);
      [|by apply IH].
    case_bool_decide as Hs; [by apply IH|].
    destruct (IH ({[bidderOf b]} ∪ seen) Hin Hc) as [H|H].
    + apply elem_of_union in H as [H|H]; [|by left].
      apply elem_of_singleton in H. right. left. done.
    + right. by right.
Qed.

(** The first bid of a bidder on the critical graph is the reported one. *)
Lemma reportedBids_first network traceEvents pubadsImpl
    (before after : list NetworkRequest.t) bid seen :
  onCriticalGraph network traceEvents pubadsImpl bid = true →
  bidderOf bid ∉ seen →
  (∀ x, In x before →
     onCriticalGraph network traceEvents pubadsImpl x = true →
     bidderOf x ≠ bidderOf bid) →
  In bid (reportedBids network traceEvents pubadsImpl
            (before ++ bid :: after) seen).
Proof.
  intros Hc. revert seen.
  induction before as [|x before IH]; intros seen Hs Hb; cbn.
  - rewrite Hc. rewrite bool_decide_eq_false_2 by done. by left.
  - assert (∀ y, In y before →
              onCriticalGraph network traceEvents pubadsImpl y = true →
              bidderOf y ≠ bidderOf bid) as Hb'
      by (intros y Hy; apply Hb; by right).
    destruct (onCriticalGraph network traceEvents pubadsImpl x) eqn:Hx;
      [|by apply IH].
    case_bool_decide as Hsx; [by apply IH|].
    right. apply IH; [|done].
    intros Hin. apply elem_of_union in Hin as [Hin|Hin]; [|done].
    apply elem_of_singleton in Hin.
    by apply (Hb x (or_introl eq_refl) Hx).
Qed.

Lemma filter_sublist {A : Type} (f : A → bool) (l : list A) :
  sublist (List.filter f l) l.
Proof.
  induction l as [|x l IH]; cbn; [constructor|].
  destruct (f x); by constructor.
Qed.

Lemma reportedBids_sublist network traceEvents pubadsImpl bids seen :
  sublist (reportedBids network traceEvents pubadsImpl bids seen) bids.
Proof.
  revert seen. induction bids as [|b bids IH]; intros seen; cbn;
    [constructor|].
  destruct (onCriticalGraph network traceEvents pubadsImpl b);
    [|by constructor].
  case_bool_decide; by constructor.
Qed.

(** X15: an applicable result either passes, with numericValue 0, score 1
    and no details, or fails, with score 0 and a table under the four
    fixed headings whose number of rows is the numericValue. *)
Theorem audit_outcome (devtoolsLog : DevtoolsLog) traceEvents (p : Product) :
  audit devtoolsLog traceEvents = Applicable p →
  (numericValue p = 0 ∧ productScore p = one ∧ details p = None) ∨
  (0 < numericValue p ∧ productScore p = zero ∧
   ∃ table, details p = Some table ∧ headings table = HEADINGS ∧
            length (items table) = numericValue p).
Proof.
  intros Ha. apply audit_product in Ha as (pubadsImpl & _ & _ & ->).
  cbv zeta. cbn [numericValue productScore details].
  destruct (length _) as [|n] eqn:E; cbn.
  - by left.
  - right. split; [lia|]. split; [done|]. eexists. split; [done|].
    by cbn.
Qed.

(** X16: the audit answers NO_TAG exactly when no network record has an
    implementation-tag URL, and NO_BIDS exactly when there is such a
    record and no bid request shares the frame of the first one. *)
Theorem audit_not_applicable_iff (devtoolsLog : DevtoolsLog) traceEvents :
  let network := requestNetworkRecords devtoolsLog in
  (audit devtoolsLog traceEvents = NotApplicable NO_TAG ↔
   ∀ r, In r network → isImplTag (NetworkRequest.url r) = false) ∧
  (audit devtoolsLog traceEvents = NotApplicable NO_BIDS ↔
   ∃ pubadsImpl,
     List.find (fun r => isImplTag (NetworkRequest.url r)) network
       = Some pubadsImpl ∧
     ∀ bid, In bid network → isBidRequest bid = true →
       NetworkRequest.frameId bid ≠ NetworkRequest.frameId pubadsImpl).
Proof.
  cbn zeta. unfold GptBidsInParallel.audit.
  destruct (List.find _ (requestNetworkRecords devtoolsLog))
    as [pubadsImpl|] eqn:Hf.
  - assert ((∀ bid, In bid (requestNetworkRecords devtoolsLog) →
               isBidRequest bid = true →
               NetworkRequest.frameId bid
               ≠ NetworkRequest.frameId pubadsImpl)
            ↔ bidsOf (requestNetworkRecords devtoolsLog) pubadsImpl = [])
      as Hbids.
    { unfold GptBidsInParallel.bidsOf. rewrite filter_nil_iff. split.
      - intros H bid Hin. apply filter_In in Hin as [Hin Hb].
        apply bool_decide_eq_false. by apply H.
      - intros H bid Hin Hb Heq.
        assert (bool_decide
                  (NetworkRequest.frameId bid
                   = NetworkRequest.frameId pubadsImpl) = false) as Hd.
        { apply (H bid). apply filter_In. done. }
        by apply bool_decide_eq_false in Hd. }
    split.
    + split.
      * destruct (bidsOf _ pubadsImpl); discriminate.
      * intros H. apply find_some in Hf as [Hin Ht].
        rewrite (H _ Hin) in Ht. done.
    + split.
      * intros H. exists pubadsImpl. split; [done|]. apply Hbids.
        destruct (bidsOf _ pubadsImpl); [done|discriminate].
      * intros (impl & [= <-] & H). apply Hbids in H. by rewrite H.
  - split.
    + split; [|done]. intros _ r Hin.
      by apply (find_none _ _ Hf).
    + split; [discriminate|]. by intros (impl & ? & _).
Qed.

(** X17: an applicable audit passes (score 1) exactly when the critical
    graph of no bid request of the frame of the implementation tag
    contains the tag; otherwise its score is 0. *)
Theorem audit_passes_iff (devtoolsLog : DevtoolsLog) traceEvents
    (p : Product) :
  audit devtoolsLog traceEvents = Applicable p →
  let network := requestNetworkRecords devtoolsLog in
  ∃ pubadsImpl,
    List.find (fun r => isImplTag (NetworkRequest.url r)) network
      = Some pubadsImpl ∧
    (productScore p = one ↔
     ∀ bid, In bid network → isBidRequest bid = true →
       NetworkRequest.frameId bid = NetworkRequest.frameId pubadsImpl →
       NetworkRequest.ref pubadsImpl ∉
         getCriticalGraph network traceEvents bid) ∧
    (productScore p = one ∨ productScore p = zero).
Proof.
  intros Ha. cbn zeta.
  apply audit_product in Ha as (pubadsImpl & Hf & _ & ->).
  exists pubadsImpl. split; [done|].
  cbv zeta. cbn [productScore]. rewrite length_map.
  pose proof (reportedBids_nil_iff (requestNetworkRecords devtoolsLog)
                traceEvents pubadsImpl
                (bidsOf (requestNetworkRecords devtoolsLog) pubadsImpl) ∅)
    as Hnil.
  destruct (reportedBids _ traceEvents pubadsImpl _ ∅) as [|b0 rep]; cbn.
  - split; [|by left]. split; [|done]. intros _ bid Hin Hb Hfr Hc.
    assert (bidderOf bid ∈ (∅ : gset string)) as Hempty.
    { apply (proj1 Hnil eq_refl bid).
      - apply bidsOf_In. done.
      - by apply bool_decide_eq_true. }
    by apply not_elem_of_empty in Hempty.
  - split; [|by right]. split; [discriminate|]. intros H. exfalso.
    assert (b0 :: rep = []) as Hcontra; [|done].
    apply Hnil. intros bid Hin Hc. exfalso.
    apply bidsOf_In in Hin as (Hin & Hb & Hfr).
    apply (H bid Hin Hb Hfr). by apply bool_decide_eq_true in Hc.
Qed.

Lemma rowOf_url timings bid :
  TableRow.url (rowOf timings bid) =
  getAbbreviatedUrl (NetworkRequest.url bid).
Proof.
  unfold GptBidsInParallel.rowOf. by destruct (bidTiming timings bid).
Qed.

(** X18: the rows of the failure table follow the order of the network
    log: they are the rows of a sublist of the network records, all of
    them bid requests of the frame of the implementation tag. *)
Theorem audit_table_order (devtoolsLog : DevtoolsLog) traceEvents
    (p : Product) (table : TableDetails) :
  audit devtoolsLog traceEvents = Applicable p →
  details p = Some table →
  let network := requestNetworkRecords devtoolsLog in
  ∃ pubadsImpl reported,
    List.find (fun r => isImplTag (NetworkRequest.url r)) network
      = Some pubadsImpl ∧
    items table =
      map (rowOf (getTimingsByRecord traceEvents devtoolsLog)) reported ∧
    sublist reported network ∧
    ∀ bid, In bid reported →
      isBidRequest bid = true ∧
      NetworkRequest.frameId bid = NetworkRequest.frameId pubadsImpl.
Proof.
  intros Ha Hd. cbn zeta.
  destruct (audit_table _ _ _ _ Ha Hd) as (pubadsImpl & Hf & Hi).
  exists pubadsImpl. eexists. split; [done|]. split; [exact Hi|]. split.
  - etrans; [apply reportedBids_sublist|].
    unfold GptBidsInParallel.bidsOf.
    etrans; apply filter_sublist.
  - intros bid Hin. apply reportedBids_spec in Hin as (Hin & _ & _).
    by apply bidsOf_spec in Hin as (_ & Hb & Hfr).
Qed.

(** X19: no serialized bidder is left out: for every bid request of the
    frame of the implementation tag whose critical graph contains the tag,
    the audit fails and the table has a row with the bidder name of that
    bid. *)
Theorem audit_bidders_complete (devtoolsLog : DevtoolsLog) traceEvents
    (p : Product) :
  audit devtoolsLog traceEvents = Applicable p →
  let network := requestNetworkRecords devtoolsLog in
  ∃ pubadsImpl,
    List.find (fun r => isImplTag (NetworkRequest.url r)) network
      = Some pubadsImpl ∧
    ∀ bid, In bid network → isBidRequest bid = true →
      NetworkRequest.frameId bid = NetworkRequest.frameId pubadsImpl →
      NetworkRequest.ref pubadsImpl ∈
        getCriticalGraph network traceEvents bid →
      ∃ table,
        details p = Some table ∧
        In (orEmpty (getHeaderBidder (NetworkRequest.url bid)))
          (map TableRow.bidder (items table)).
Proof.
  intros Ha. cbn zeta.
  apply audit_product in Ha as (pubadsImpl & Hf & _ & ->).
  exists pubadsImpl. split; [done|].
  intros bid Hin Hb Hfr Hc.
  destruct (reportedBids_complete (requestNetworkRecords devtoolsLog)
              traceEvents pubadsImpl
              (bidsOf (requestNetworkRecords devtoolsLog) pubadsImpl)
              ∅ bid) as [H|H].
  - apply bidsOf_In. done.
  - by apply bool_decide_eq_true.
  - by apply not_elem_of_empty in H.
  - cbv zeta. cbn [details]. rewrite length_map.
    destruct (reportedBids _ traceEvents pubadsImpl _ ∅) as [|b0 rep] eqn:E;
      [by destruct H|].
    cbn [length Nat.eqb negb]. eexists. split; [reflexivity|].
    cbn [items makeTableDetails]. rewrite map_map.
    rewrite (map_ext _ bidderOf)
      by (intros b; apply rowOf_bidder).
    exact H.
Qed.

(** X20: of several bid requests of one bidder the first one is shown:
    a bid on the critical graph of which no earlier bid on the critical
    graph has the same bidder name gets its own row in the table. *)
Theorem audit_first_bid_reported (devtoolsLog : DevtoolsLog) traceEvents
    (p : Product) :
  audit devtoolsLog traceEvents = Applicable p →
  let network := requestNetworkRecords devtoolsLog in
  ∃ pubadsImpl,
    List.find (fun r => isImplTag (NetworkRequest.url r)) network
      = Some pubadsImpl ∧
    ∀ before bid after,
      bidsOf network pubadsImpl = before ++ bid :: after →
      NetworkRequest.ref pubadsImpl ∈
        getCriticalGraph network traceEvents bid →
      (∀ x, In x before →
         NetworkRequest.ref pubadsImpl ∈
           getCriticalGraph network traceEvents x →
         bidderOf x ≠ bidderOf bid) →
      ∃ table,
        details p = Some table ∧
        In (rowOf (getTimingsByRecord traceEvents devtoolsLog) bid)
          (items table).
Proof.
  intros Ha. cbn zeta.
  apply audit_product in Ha as (pubadsImpl & Hf & _ & ->).
  exists pubadsImpl. split; [done|].
  intros before bid after Hbids Hc Hfirst.
  assert (In bid
            (reportedBids (requestNetworkRecords devtoolsLog) traceEvents
               pubadsImpl
               (bidsOf (requestNetworkRecords devtoolsLog) pubadsImpl) ∅))
    as Hin.
  { rewrite Hbids. apply reportedBids_first.
    - by apply bool_decide_eq_true.
    - apply not_elem_of_empty.
    - intros x Hx Hcx. apply Hfirst; [done|].
      by apply bool_decide_eq_true in Hcx. }
  cbv zeta. cbn [details]. rewrite length_map.
  destruct (reportedBids _ traceEvents pubadsImpl _ ∅) as [|b0 rep] eqn:E;
    [by destruct Hin|].
  cbn [length Nat.eqb negb]. eexists. split; [reflexivity|].
  cbn [items makeTableDetails]. by apply in_map.
Qed.

(** X21: the simulated timings only fill the time columns: with any other
    timing map the audit gives the same applicability, the same
    numericValue and score, and a table with the same bidder and url
    columns. *)
Theorem audit_timings_irrelevant (devtoolsLog : DevtoolsLog) traceEvents
    (otherTimings : list TraceEvent → DevtoolsLog
                    → gmap positive NodeTiming.t) :
  let textColumns (d : option TableDetails) :=
    option_map
      (fun t => map (fun row => (TableRow.bidder row, TableRow.url row))
                  (items t)) d in
  match audit devtoolsLog traceEvents,
        GptBidsInParallel.audit isImplTag isBidRequest getAbbreviatedUrl
          getHeaderBidder getCriticalGraph DevtoolsLog requestNetworkRecords
          otherTimings devtoolsLog traceEvents with
  | NotApplicable r, NotApplicable r' => r = r'
  | Applicable p, Applicable p' =>
      numericValue p = numericValue p' ∧
      productScore p = productScore p' ∧
      textColumns (details p) = textColumns (details p')
  | _, _ => False
  end.
Proof.
  cbn zeta. unfold GptBidsInParallel.audit.
  destruct (List.find _ (requestNetworkRecords devtoolsLog))
    as [pubadsImpl|]; [|done].
  destruct (bidsOf (requestNetworkRecords devtoolsLog) pubadsImpl)
    as [|b0 bids] eqn:Hb; [done|].
  cbv zeta. cbn [numericValue productScore details].
  unfold GptBidsInParallel.tableView. rewrite Hb, !auditLoop_rows.
  cbn [app]. rewrite !length_map.
  destruct (reportedBids _ traceEvents pubadsImpl (b0 :: bids) ∅)
    as [|r0 rep]; [done|].
  cbn [length Nat.eqb negb option_map items makeTableDetails].
  split; [done|]. split; [done|]. f_equal.
  rewrite !map_map. apply map_ext. intros bid.
  by rewrite !rowOf_bidder, !rowOf_url.
Qed.

(** X22: the bidder column of the row of a reported bid is the header
    bidder of the URL of the bid, or the empty string when there is none,
    and its url column is the abbreviated URL of the bid. *)
Theorem audit_row_text (devtoolsLog : DevtoolsLog) traceEvents
    (p : Product) (table : TableDetails) :
  audit devtoolsLog traceEvents = Applicable p →
  details p = Some table →
  let network := requestNetworkRecords devtoolsLog in
  ∃ pubadsImpl,
    List.find (fun r => isImplTag (NetworkRequest.url r)) network
      = Some pubadsImpl ∧
    Forall2
      (fun bid row =>
         TableRow.bidder row =
           match getHeaderBidder (NetworkRequest.url bid) with
           | Some b => b
           | None => ""%string
           end ∧
         TableRow.url row = getAbbreviatedUrl (NetworkRequest.url bid))
      (reportedBids network traceEvents pubadsImpl
         (bidsOf network pubadsImpl) ∅)
      (items table).
Proof.
  intros Ha Hd. cbn zeta.
  destruct (audit_table _ _ _ _ Ha Hd) as (pubadsImpl & Hf & Hi).
  exists pubadsImpl. split; [done|]. rewrite Hi.
  apply Forall2_map_r. intros bid _.
  by rewrite rowOf_bidder, rowOf_url.
Qed.

End GptBidsInParallelProperties.

(* ===================================================================== *)
(** ** The theorems on the sample inputs *)
(* ===================================================================== *)

(** The audits with the helpers of [Sample]. *)
Local Abbreviation sampleAdShiftAudit :=
  (CumulativeAdShift.audit Sample.toClientRect Sample.overlaps
     Sample.isAdIframe Sample.isImplTag Sample.getScriptUrl
     Sample.computeLogNormalScore Sample.toLocaleString).
Local Abbreviation sampleIsTagLoad :=
  (CumulativeAdShift.isTagLoad Sample.isImplTag Sample.getScriptUrl).
Local Abbreviation sampleCompute :=
  (CumulativeAdShift.compute Sample.toClientRect Sample.overlaps).
Local Abbreviation samplePaintAudit :=
  (FirstAdPaint.audit Sample.curve number (fun timing => timing)
     Sample.toLocaleString).
Local Abbreviation sampleBidsAudit :=
  (GptBidsInParallel.audit Sample.isImplTag Sample.isBidRequest
     Sample.getAbbreviatedUrl Sample.getHeaderBidder Sample.getCriticalGraph
     (list NetworkRequest.t) (fun log => log) Sample.getTimingsByRecord).

(** *** CumulativeAdShift *)

Example isAdShift_sample :
  CumulativeAdShift.isAdShift Sample.toClientRect Sample.overlaps
    (Sample.layoutShiftAt (Num 10)) [Sample.adSlot] = true ∧
  CumulativeAdShift.isAdShift Sample.toClientRect Sample.overlaps
    Sample.subframeShift [Sample.adSlot] = false.
Proof. split; reflexivity. Qed.

(** The audit with a helper that throws on events without [args]. *)
Local Abbreviation strictAdShiftAudit :=
  (CumulativeAdShift.audit Sample.toClientRect Sample.overlaps
     Sample.isAdIframe Sample.isImplTag Sample.getScriptUrlByName
     Sample.computeLogNormalScore Sample.toLocaleString).

(** A trace with layout shifts, on whose events the helper does not
    throw, on a page whose only iframe is no ad. *)
Lemma audit_not_applicable_witness :
  ((∀ e, In e Sample.traceWithTag → name e ≠ "LayoutShift") ∨
   ((∀ f, In f [Sample.videoFrame] → Sample.isAdIframe f = false) ∧
    ∃ t, CumulativeAdShift.tagLoadTs Sample.isImplTag
           Sample.getScriptUrlByName Sample.traceWithTag = Returns t)) ∧
  strictAdShiftAudit Sample.traceWithTag [Sample.videoFrame]
    CumulativeAdShift.defaultOptions
  = Returns (CumulativeAdShift.NotApplicable NoAdRendered).
Proof.
  assert ((∀ f, In f [Sample.videoFrame] → Sample.isAdIframe f = false) ∧
          ∃ t, CumulativeAdShift.tagLoadTs Sample.isImplTag
                 Sample.getScriptUrlByName Sample.traceWithTag = Returns t)
    as H.
  { split; [intros f [<-|[]]; reflexivity|]. eexists. reflexivity. }
  split; [by right|].
  apply (audit_not_applicable Sample.toClientRect Sample.overlaps
           Sample.isAdIframe Sample.isImplTag Sample.getScriptUrlByName
           Sample.computeLogNormalScore Sample.toLocaleString
           Sample.traceWithTag [Sample.videoFrame]
           CumulativeAdShift.defaultOptions).
  by right.
Defined.

(** C7 as stated fails: no iframe of the page is an ad, but the trace has
    a layout shift and an event without [args]; the search for the
    tag-load event runs before the ad check and the helper throws on that
    event, so the audit ends with the exception instead of a
    not-applicable result. *)
Lemma audit_not_applicable_counterexample :
  (∀ f, In f [Sample.videoFrame] → Sample.isAdIframe f = false) ∧
  Sample.getScriptUrlByName Sample.bareEvent = Throws TypeError ∧
  strictAdShiftAudit Sample.traceWithBareEvent [Sample.videoFrame]
    CumulativeAdShift.defaultOptions = Throws TypeError ∧
  ¬ ∃ reason,
      strictAdShiftAudit Sample.traceWithBareEvent [Sample.videoFrame]
        CumulativeAdShift.defaultOptions
      = Returns (CumulativeAdShift.NotApplicable reason).
Proof.
  split; [intros f [<-|[]]; reflexivity|].
  split; [reflexivity|]. split; [reflexivity|].
  intros [reason H]. discriminate H.
Qed.

(** Without layout shift the helper is not called: the same helper on a
    trace of one event without [args]. *)
Example audit_no_layout_shift_sample :
  strictAdShiftAudit [Sample.bareEvent] [Sample.adSlot]
    CumulativeAdShift.defaultOptions
  = Returns (CumulativeAdShift.NotApplicable NoLayoutShifts).
Proof. reflexivity. Qed.

(** Two counted ad shifts, one before and one after a tag load at 50. *)
Lemma compute_ordered_witness :
  let r := sampleCompute Sample.traceFinite [Sample.adSlot] (Num 50) in
  (∀ e d, In e Sample.traceFinite → CumulativeAdShift.counted e = Some d →
          ge (ofOptional (score d)) zero = true) ∧
  le (CumulativeAdShift.cumulativePreImplTagAdShift r)
     (CumulativeAdShift.cumulativeAdShift r) = true ∧
  le (CumulativeAdShift.cumulativeAdShift r)
     (CumulativeAdShift.cumulativeShift r) = true.
Proof.
  cbn zeta.
  assert (∀ e d, In e Sample.traceFinite →
            CumulativeAdShift.counted e = Some d →
            ge (ofOptional (score d)) zero = true) as H.
  { intros e d [<-|[<-|[<-|[]]]]; cbn; intros [= <-]; reflexivity. }
  split; [exact H|].
  exact (proj2 (proj2 (proj2
    (compute_ordered Sample.toClientRect Sample.overlaps
       Sample.traceFinite [Sample.adSlot] (Num 50)))) H).
Defined.

Example compute_sample :
  sampleCompute Sample.traceFinite [Sample.adSlot] (Num 50) =
  {| CumulativeAdShift.cumulativeShift := Num (20 # 100)%Q;
     CumulativeAdShift.numShifts := 2;
     CumulativeAdShift.cumulativeAdShift := Num (20 # 100)%Q;
     CumulativeAdShift.numAdShifts := 2;
     CumulativeAdShift.cumulativePreImplTagAdShift := Num (1 # 10)%Q;
     CumulativeAdShift.numPreImplTagAdShifts := 1 |}.
Proof. reflexivity. Qed.

(** No implementation tag; the one event with the timestamp Infinity is
    a subframe shift, which is not counted: both ad shifts are pre-tag-load
    shifts. *)
Lemma audit_no_tag_details_witness :
  let ads := List.filter Sample.isAdIframe [Sample.adSlot] in
  let adShifts :=
    List.filter
      (fun e => CumulativeAdShift.qualifies e &&
                CumulativeAdShift.isAdShift Sample.toClientRect
                  Sample.overlaps e ads)
      (List.filter CumulativeAdShift.isLayoutShift
         Sample.traceUncountedAtInfinity) in
  (∀ e, In e Sample.traceUncountedAtInfinity →
        sampleIsTagLoad e ≠ Returns true) ∧
  (∀ e, In e adShifts → lt (ts e) Infinity = true) ∧
  ∃ p,
    sampleAdShiftAudit Sample.traceUncountedAtInfinity [Sample.adSlot]
      CumulativeAdShift.defaultOptions
      = Returns (CumulativeAdShift.Applicable p) ∧
    CumulativeAdShift.numPreImplTagAdShifts (CumulativeAdShift.details p) =
      CumulativeAdShift.numAdShifts (CumulativeAdShift.details p) ∧
    CumulativeAdShift.cumulativePreImplTagAdShift (CumulativeAdShift.details p)
      = CumulativeAdShift.cumulativeAdShift (CumulativeAdShift.details p).
Proof.
  cbn zeta.
  assert (∀ e, In e Sample.traceUncountedAtInfinity →
               sampleIsTagLoad e ≠ Returns true) as Htag.
  { intros e _. discriminate. }
  split; [exact Htag|].
  split; [intros e [<-|[<-|[]]]; reflexivity|].
  eexists. split; [reflexivity|].
  apply (audit_no_tag_details Sample.toClientRect Sample.overlaps
           Sample.isAdIframe Sample.isImplTag Sample.getScriptUrl
           Sample.computeLogNormalScore Sample.toLocaleString
           Sample.traceUncountedAtInfinity [Sample.adSlot]
           CumulativeAdShift.defaultOptions _ Htag eq_refl).
  intros e [<-|[<-|[]]]; reflexivity.
Defined.

(** A mixed trace: of two ad shifts, the one at a finite time is a
    pre-tag-load shift and the one at Infinity is not. *)
Example audit_no_tag_mixed_sample :
  ∃ p,
    sampleAdShiftAudit Sample.traceMixed [Sample.adSlot]
      CumulativeAdShift.defaultOptions
      = Returns (CumulativeAdShift.Applicable p) ∧
    CumulativeAdShift.numAdShifts (CumulativeAdShift.details p) = 2 ∧
    CumulativeAdShift.numPreImplTagAdShifts (CumulativeAdShift.details p) = 1.
Proof. eexists. split; [reflexivity|]. split; reflexivity. Qed.

(** C9 as stated fails: the trace has no implementation tag, its one ad
    shift has the timestamp Infinity, and [Infinity < Infinity] is false:
    the shift is an ad shift but no pre-tag-load shift. *)
Lemma audit_no_tag_counterexample :
  (∀ e, In e Sample.traceShiftAtInfinity →
        sampleIsTagLoad e = Returns false) ∧
  ∃ p,
    sampleAdShiftAudit Sample.traceShiftAtInfinity [Sample.adSlot]
      CumulativeAdShift.defaultOptions
      = Returns (CumulativeAdShift.Applicable p) ∧
    CumulativeAdShift.numAdShifts (CumulativeAdShift.details p) = 1 ∧
    CumulativeAdShift.numPreImplTagAdShifts (CumulativeAdShift.details p) = 0 ∧
    CumulativeAdShift.numPreImplTagAdShifts (CumulativeAdShift.details p) ≠
      CumulativeAdShift.numAdShifts (CumulativeAdShift.details p) ∧
    CumulativeAdShift.cumulativePreImplTagAdShift (CumulativeAdShift.details p)
      ≠ CumulativeAdShift.cumulativeAdShift (CumulativeAdShift.details p).
Proof.
  split; [intros e _; reflexivity|].
  eexists. split; [reflexivity|]. cbn.
  repeat split; discriminate.
Qed.

(** *** FirstAdPaint *)

(** A timing of 3.5 s: the curve gives 0.7, which the audit returns. *)
Lemma audit_score_clamped_witness :
  gt (Num 3500) zero = true ∧
  ∃ p,
    fst (samplePaintAudit (Num 3500) Sample.emptyWorld)
      = FirstAdPaint.Applicable p ∧
    FirstAdPaint.productScore p = Num (7 # 10)%Q.
Proof.
  split; [reflexivity|].
  destruct (audit_score_clamped Sample.curve number (fun timing => timing)
              Sample.toLocaleString (Num 3500) Sample.emptyWorld eq_refl)
    as (p & Hp & _ & Hs & _).
  exists p. split; [exact Hp|]. exact (Hs eq_refl).
Defined.

(** A timing of 2 s: the curve gives 1 and the audit returns 1. *)
Example audit_score_clamped_sample :
  fst (samplePaintAudit (Num 2000) Sample.emptyWorld) =
  FirstAdPaint.Applicable
    {| FirstAdPaint.numericValue := Num (2000 # 1000)%Q;
       FirstAdPaint.productScore := one;
       FirstAdPaint.displayValue := "" |}.
Proof. reflexivity. Qed.

(** A timing of zero: the warning is pushed and the curve is not called. *)
Lemma audit_guard_witness :
  (Num 0 = NaN ∨ le (Num 0) zero = true) ∧
  samplePaintAudit (Num 0) Sample.emptyWorld =
    (FirstAdPaint.NotApplicable NoAdRendered,
     {| FirstAdPaint.LighthouseRunWarnings := [FirstAdPaint.WarnNoAdRendered];
        FirstAdPaint.scoreCalls := [] |}).
Proof.
  assert (Num 0 = NaN ∨ le (Num 0) zero = true) as H by (right; reflexivity).
  split; [exact H|].
  exact (proj1
    (audit_guard Sample.curve number (fun timing => timing)
       Sample.toLocaleString (Num 0) Sample.emptyWorld) H).
Defined.

(** C4 as stated fails: the timing Infinity passes the guard
    [!(timing > 0)], so the curve is called on a timing that is not
    finite. *)
Lemma audit_guard_counterexample :
  gt Infinity zero = true ∧
  ∃ c,
    In c (FirstAdPaint.scoreCalls
            (snd (samplePaintAudit Infinity Sample.emptyWorld))) ∧
    FirstAdPaint.measuredValue c = Infinity ∧
    isFinite (FirstAdPaint.measuredValue c) = false.
Proof.
  split; [reflexivity|].
  eexists. split; [left; reflexivity|]. split; reflexivity.
Qed.

(** *** GptBidsInParallel *)

Example bids_audit_sample :
  sampleBidsAudit Sample.network [] =
  GptBidsInParallel.Applicable Sample.expectedProduct.
Proof. vm_compute. reflexivity. Qed.

Lemma audit_reports_only_critical_witness :
  sampleBidsAudit Sample.network []
    = GptBidsInParallel.Applicable Sample.expectedProduct ∧
  GptBidsInParallel.details Sample.expectedProduct
    = Some Sample.expectedTable ∧
  ∃ pubadsImpl,
    List.find (fun r => Sample.isImplTag (NetworkRequest.url r))
      Sample.network = Some pubadsImpl ∧
    ∀ bid,
      In bid (GptBidsInParallel.reportedBids Sample.getHeaderBidder
                Sample.getCriticalGraph Sample.network [] pubadsImpl
                (GptBidsInParallel.bidsOf Sample.isBidRequest Sample.network
                   pubadsImpl) ∅) →
      NetworkRequest.ref pubadsImpl ∈
        Sample.getCriticalGraph Sample.network [] bid.
Proof.
  assert (sampleBidsAudit Sample.network []
          = GptBidsInParallel.Applicable Sample.expectedProduct) as Ha
    by (vm_compute; reflexivity).
  split; [exact Ha|]. split; [reflexivity|].
  destruct (audit_reports_only_critical Sample.isImplTag Sample.isBidRequest
              Sample.getAbbreviatedUrl Sample.getHeaderBidder
              Sample.getCriticalGraph (list NetworkRequest.t)
              (fun log => log) Sample.getTimingsByRecord
              Sample.network [] Sample.expectedProduct Sample.expectedTable
              Ha eq_refl) as (pubadsImpl & Hf & _ & Hrep & _).
  exists pubadsImpl. split; [exact Hf|].
  intros bid Hin. exact (proj2 (proj2 (Hrep bid Hin))).
Defined.

Lemma audit_row_timing_witness :
  sampleBidsAudit Sample.network []
    = GptBidsInParallel.Applicable Sample.expectedProduct ∧
  GptBidsInParallel.details Sample.expectedProduct
    = Some Sample.expectedTable ∧
  ∃ pubadsImpl reported,
    Forall2
      (fun bid row =>
         match Sample.getTimingsByRecord [] Sample.network
                 !! NetworkRequest.ref bid with
         | Some t =>
             TableRow.startTime row = NodeTiming.startTime t ∧
             TableRow.duration row =
               sub (NodeTiming.endTime t) (NodeTiming.startTime t)
         | None =>
             TableRow.startTime row = NetworkRequest.startTime bid ∧
             TableRow.duration row =
               sub (NetworkRequest.endTime bid) (NetworkRequest.startTime bid)
         end)
      reported (GptBidsInParallel.items Sample.expectedTable) ∧
    reported =
      GptBidsInParallel.reportedBids Sample.getHeaderBidder
        Sample.getCriticalGraph Sample.network [] pubadsImpl
        (GptBidsInParallel.bidsOf Sample.isBidRequest Sample.network
           pubadsImpl) ∅.
Proof.
  assert (sampleBidsAudit Sample.network []
          = GptBidsInParallel.Applicable Sample.expectedProduct) as Ha
    by (vm_compute; reflexivity).
  split; [exact Ha|]. split; [reflexivity|].
  destruct (audit_row_timing Sample.isImplTag Sample.isBidRequest
              Sample.getAbbreviatedUrl Sample.getHeaderBidder
              Sample.getCriticalGraph (list NetworkRequest.t)
              (fun log => log) Sample.getTimingsByRecord
              Sample.network [] Sample.expectedProduct Sample.expectedTable
              Ha eq_refl) as (pubadsImpl & _ & Hrows).
  exists pubadsImpl. eexists. split; [exact Hrows|reflexivity].
Defined.

Lemma audit_one_row_per_bidder_witness :
  sampleBidsAudit Sample.network []
    = GptBidsInParallel.Applicable Sample.expectedProduct ∧
  GptBidsInParallel.details Sample.expectedProduct
    = Some Sample.expectedTable ∧
  NoDup (map TableRow.bidder (GptBidsInParallel.items Sample.expectedTable)) ∧
  length (List.filter (fun row => String.eqb (TableRow.bidder row) "")
            (GptBidsInParallel.items Sample.expectedTable)) ≤ 1.
Proof.
  assert (sampleBidsAudit Sample.network []
          = GptBidsInParallel.Applicable Sample.expectedProduct) as Ha
    by (vm_compute; reflexivity).
  split; [exact Ha|]. split; [reflexivity|].
  destruct (audit_one_row_per_bidder Sample.isImplTag Sample.isBidRequest
              Sample.getAbbreviatedUrl Sample.getHeaderBidder
              Sample.getCriticalGraph (list NetworkRequest.t)
              (fun log => log) Sample.getTimingsByRecord
              Sample.network [] Sample.expectedProduct Sample.expectedTable
              Ha eq_refl) as (Hnd & Hle & _).
  split; [exact Hnd|exact Hle].
Defined.

(** *** Further examples: CumulativeAdShift *)

(** The subframe shift has no impacted nodes. *)
Lemma isAdShift_no_nodes_witness :
  (∀ d, CumulativeAdShift.eventData Sample.subframeShift = Some d →
        impacted_nodes d = None ∨ impacted_nodes d = Some []) ∧
  CumulativeAdShift.isAdShift Sample.toClientRect Sample.overlaps
    Sample.subframeShift [Sample.adSlot] = false.
Proof.
  assert (∀ d, CumulativeAdShift.eventData Sample.subframeShift = Some d →
               impacted_nodes d = None ∨ impacted_nodes d = Some []) as H.
  { intros d [= <-]. left. reflexivity. }
  split; [exact H|].
  exact (isAdShift_no_nodes Sample.toClientRect Sample.overlaps
           Sample.subframeShift [Sample.adSlot] H).
Defined.

(** A tag load at 50 against one at 100. *)
Lemma compute_pre_tag_monotone_witness :
  le (Num 50) (Num 100) = true ∧
  CumulativeAdShift.numPreImplTagAdShifts
    (sampleCompute Sample.traceFinite [Sample.adSlot] (Num 50)) ≤
  CumulativeAdShift.numPreImplTagAdShifts
    (sampleCompute Sample.traceFinite [Sample.adSlot] (Num 100)).
Proof.
  split; [reflexivity|].
  exact (compute_pre_tag_monotone Sample.toClientRect Sample.overlaps
           Sample.traceFinite [Sample.adSlot] (Num 50) (Num 100) eq_refl).
Defined.

(** A tag-load timestamp of NaN: no timestamp is below it. *)
Lemma compute_none_before_tag_witness :
  (∀ e, In e Sample.traceFinite → lt (ts e) NaN = false) ∧
  CumulativeAdShift.numPreImplTagAdShifts
    (sampleCompute Sample.traceFinite [Sample.adSlot] NaN) = 0 ∧
  CumulativeAdShift.cumulativePreImplTagAdShift
    (sampleCompute Sample.traceFinite [Sample.adSlot] NaN) = zero.
Proof.
  assert (∀ e, In e Sample.traceFinite → lt (ts e) NaN = false) as H.
  { intros e [<-|[<-|[<-|[]]]]; reflexivity. }
  split; [exact H|].
  exact (compute_none_before_tag Sample.toClientRect Sample.overlaps
           Sample.traceFinite [Sample.adSlot] NaN H).
Defined.

(** One shift without score among scored ones. *)
Lemma compute_missing_score_witness :
  In Sample.shiftWithoutScore
    [Sample.layoutShiftAt (Num 10); Sample.shiftWithoutScore] ∧
  CumulativeAdShift.cumulativeShift
    (sampleCompute [Sample.layoutShiftAt (Num 10); Sample.shiftWithoutScore]
       [Sample.adSlot] (Num 50)) = NaN ∧
  CumulativeAdShift.cumulativeAdShift
    (sampleCompute [Sample.layoutShiftAt (Num 10); Sample.shiftWithoutScore]
       [Sample.adSlot] (Num 50)) = NaN.
Proof.
  assert (In Sample.shiftWithoutScore
            [Sample.layoutShiftAt (Num 10); Sample.shiftWithoutScore]) as Hin
    by (right; left; reflexivity).
  split; [exact Hin|].
  destruct (compute_missing_score Sample.toClientRect Sample.overlaps
              [Sample.layoutShiftAt (Num 10); Sample.shiftWithoutScore]
              [Sample.adSlot] (Num 50) Sample.shiftWithoutScore _
              Hin eq_refl eq_refl) as [H1 H2].
  split; [exact H1|exact (H2 eq_refl)].
Defined.


(** An event without [args] after the first tag evaluation is not
    reached by the search. *)
Example tagLoadTs_stops_sample :
  CumulativeAdShift.tagLoadTs Sample.isImplTag Sample.getScriptUrlByName
    [Sample.evaluateTagAt (Num 50); Sample.bareEvent] = Returns (Num 50).
Proof. reflexivity. Qed.

(** With the tag evaluated at 50 only the shift at 10 is a pre-tag-load
    shift. *)
Example audit_with_tag_sample :
  ∃ p,
    CumulativeAdShift.audit Sample.toClientRect Sample.overlaps
      Sample.isAdIframe Sample.isImplTag Sample.getScriptUrlByName
      Sample.computeLogNormalScore Sample.toLocaleString
      Sample.traceWithTag [Sample.videoFrame; Sample.adSlot]
      CumulativeAdShift.defaultOptions
      = Returns (CumulativeAdShift.Applicable p) ∧
    CumulativeAdShift.numAdShifts (CumulativeAdShift.details p) = 2 ∧
    CumulativeAdShift.numPreImplTagAdShifts (CumulativeAdShift.details p) = 1.
Proof. eexists. split; [reflexivity|]. split; reflexivity. Qed.

Lemma audit_raw_score_nonneg_witness :
  (∀ e d, In e Sample.traceFinite → name e = "LayoutShift" →
          CumulativeAdShift.counted e = Some d →
          ge (ofOptional (score d)) zero = true) ∧
  ∃ p,
    sampleAdShiftAudit Sample.traceFinite [Sample.adSlot]
      CumulativeAdShift.defaultOptions
      = Returns (CumulativeAdShift.Applicable p) ∧
    le zero (CumulativeAdShift.numericValue p) = true.
Proof.
  assert (∀ e d, In e Sample.traceFinite → name e = "LayoutShift" →
            CumulativeAdShift.counted e = Some d →
            ge (ofOptional (score d)) zero = true) as H.
  { intros e d [<-|[<-|[<-|[]]]] _; cbn; intros [= <-]; reflexivity. }
  split; [exact H|].
  eexists. split; [reflexivity|].
  exact (proj1
    (audit_raw_score_nonneg Sample.toClientRect Sample.overlaps
       Sample.isAdIframe Sample.isImplTag Sample.getScriptUrl
       Sample.computeLogNormalScore Sample.toLocaleString
       Sample.traceFinite [Sample.adSlot] CumulativeAdShift.defaultOptions
       _ H eq_refl)).
Defined.

(** *** Further examples: FirstAdPaint *)

(** A timing of 2 s: the curve gives 1. *)
Lemma audit_score_gap_witness :
  ∃ p w',
    samplePaintAudit (Num 2000) Sample.emptyWorld
      = (FirstAdPaint.Applicable p, w') ∧
    ge (FirstAdPaint.productScore p) (Num (9 # 10)%Q) = true ∧
    FirstAdPaint.productScore p = one.
Proof.
  eexists. eexists. split; [reflexivity|]. split; [reflexivity|].
  exact (audit_score_gap Sample.curve number (fun timing => timing)
           Sample.toLocaleString (Num 2000) Sample.emptyWorld _ _
           eq_refl eq_refl).
Defined.

(** *** Further examples: GptBidsInParallel *)

Lemma sample_bids_audit :
  sampleBidsAudit Sample.network []
  = GptBidsInParallel.Applicable Sample.expectedProduct.
Proof. vm_compute. reflexivity. Defined.

Lemma audit_outcome_witness :
  sampleBidsAudit Sample.network []
    = GptBidsInParallel.Applicable Sample.expectedProduct ∧
  0 < GptBidsInParallel.numericValue Sample.expectedProduct ∧
  GptBidsInParallel.productScore Sample.expectedProduct = zero.
Proof.
  split; [exact sample_bids_audit|].
  destruct (audit_outcome Sample.isImplTag Sample.isBidRequest
              Sample.getAbbreviatedUrl Sample.getHeaderBidder
              Sample.getCriticalGraph (list NetworkRequest.t)
              (fun log => log) Sample.getTimingsByRecord
              Sample.network [] Sample.expectedProduct sample_bids_audit)
    as [(H & _ & _)|(H & Hs & _)].
  - discriminate H.
  - split; [exact H|exact Hs].
Defined.

Lemma audit_passes_iff_witness :
  sampleBidsAudit Sample.network []
    = GptBidsInParallel.Applicable Sample.expectedProduct ∧
  ¬ (∀ bid, In bid Sample.network → Sample.isBidRequest bid = true →
       NetworkRequest.frameId bid = NetworkRequest.frameId Sample.implTag →
       NetworkRequest.ref Sample.implTag ∉
         Sample.getCriticalGraph Sample.network [] bid).
Proof.
  split; [exact sample_bids_audit|].
  destruct (audit_passes_iff Sample.isImplTag Sample.isBidRequest
              Sample.getAbbreviatedUrl Sample.getHeaderBidder
              Sample.getCriticalGraph (list NetworkRequest.t)
              (fun log => log) Sample.getTimingsByRecord
              Sample.network [] Sample.expectedProduct sample_bids_audit)
    as (pubadsImpl & Hf & Hiff & _).
  injection Hf as <-. intros H. apply Hiff in H. discriminate H.
Defined.

Lemma audit_table_order_witness :
  sampleBidsAudit Sample.network []
    = GptBidsInParallel.Applicable Sample.expectedProduct ∧
  GptBidsInParallel.details Sample.expectedProduct
    = Some Sample.expectedTable ∧
  ∃ reported,
    GptBidsInParallel.items Sample.expectedTable =
      map (GptBidsInParallel.rowOf Sample.getAbbreviatedUrl
             Sample.getHeaderBidder
             (Sample.getTimingsByRecord [] Sample.network)) reported ∧
    sublist reported Sample.network.
Proof.
  split; [exact sample_bids_audit|]. split; [reflexivity|].
  destruct (audit_table_order Sample.isImplTag Sample.isBidRequest
              Sample.getAbbreviatedUrl Sample.getHeaderBidder
              Sample.getCriticalGraph (list NetworkRequest.t)
              (fun log => log) Sample.getTimingsByRecord
              Sample.network [] Sample.expectedProduct Sample.expectedTable
              sample_bids_audit eq_refl)
    as (pubadsImpl & reported & _ & Hi & Hsub & _).
  exists reported. split; [exact Hi|exact Hsub].
Defined.

(** [bidD] is on the critical graph and not reported itself: its bidder
    name, the empty one, is in the table. *)
Lemma audit_bidders_complete_witness :
  sampleBidsAudit Sample.network []
    = GptBidsInParallel.Applicable Sample.expectedProduct ∧
  (In Sample.bidD Sample.network ∧ Sample.isBidRequest Sample.bidD = true ∧
   NetworkRequest.frameId Sample.bidD = NetworkRequest.frameId Sample.implTag ∧
   NetworkRequest.ref Sample.implTag ∈
     Sample.getCriticalGraph Sample.network [] Sample.bidD) ∧
  ∃ table,
    GptBidsInParallel.details Sample.expectedProduct = Some table ∧
    In (orEmpty (Sample.getHeaderBidder (NetworkRequest.url Sample.bidD)))
      (map TableRow.bidder (GptBidsInParallel.items table)).
Proof.
  assert (In Sample.bidD Sample.network) as Hin
    by (do 4 right; left; reflexivity).
  assert (NetworkRequest.ref Sample.implTag ∈
            Sample.getCriticalGraph Sample.network [] Sample.bidD) as Hc
    by (apply (bool_decide_unpack _); vm_compute; exact I).
  split; [exact sample_bids_audit|].
  split; [split; [exact Hin|split; [reflexivity|split; [reflexivity|exact Hc]]]|].
  destruct (audit_bidders_complete Sample.isImplTag Sample.isBidRequest
              Sample.getAbbreviatedUrl Sample.getHeaderBidder
              Sample.getCriticalGraph (list NetworkRequest.t)
              (fun log => log) Sample.getTimingsByRecord
              Sample.network [] Sample.expectedProduct sample_bids_audit)
    as (pubadsImpl & Hf & H).
  injection Hf as <-.
  exact (H Sample.bidD Hin eq_refl eq_refl Hc).
Defined.

(** [bidB] comes after [bidA], whose bidder name is another one. *)
Lemma audit_first_bid_reported_witness :
  sampleBidsAudit Sample.network []
    = GptBidsInParallel.Applicable Sample.expectedProduct ∧
  GptBidsInParallel.bidsOf Sample.isBidRequest Sample.network Sample.implTag
    = [Sample.bidA] ++ Sample.bidB :: [Sample.bidC; Sample.bidD] ∧
  ∃ table,
    GptBidsInParallel.details Sample.expectedProduct = Some table ∧
    In (GptBidsInParallel.rowOf Sample.getAbbreviatedUrl
          Sample.getHeaderBidder
          (Sample.getTimingsByRecord [] Sample.network) Sample.bidB)
      (GptBidsInParallel.items table).
Proof.
  assert (NetworkRequest.ref Sample.implTag ∈
            Sample.getCriticalGraph Sample.network [] Sample.bidB) as Hc
    by (apply (bool_decide_unpack _); vm_compute; exact I).
  split; [exact sample_bids_audit|]. split; [reflexivity|].
  destruct (audit_first_bid_reported Sample.isImplTag Sample.isBidRequest
              Sample.getAbbreviatedUrl Sample.getHeaderBidder
              Sample.getCriticalGraph (list NetworkRequest.t)
              (fun log => log) Sample.getTimingsByRecord
              Sample.network [] Sample.expectedProduct sample_bids_audit)
    as (pubadsImpl & Hf & H).
  injection Hf as <-.
  apply (H [Sample.bidA] Sample.bidB [Sample.bidC; Sample.bidD] eq_refl Hc).
  intros x [<-|[]] _. discriminate.
Defined.

Lemma audit_row_text_witness :
  sampleBidsAudit Sample.network []
    = GptBidsInParallel.Applicable Sample.expectedProduct ∧
  GptBidsInParallel.details Sample.expectedProduct
    = Some Sample.expectedTable ∧
  ∃ reported,
    Forall2
      (fun bid row =>
         TableRow.bidder row =
           match Sample.getHeaderBidder (NetworkRequest.url bid) with
           | Some b => b
           | None => ""%string
           end ∧
         TableRow.url row =
           Sample.getAbbreviatedUrl (NetworkRequest.url bid))
      reported (GptBidsInParallel.items Sample.expectedTable).
Proof.
  split; [exact sample_bids_audit|]. split; [reflexivity|].
  destruct (audit_row_text Sample.isImplTag Sample.isBidRequest
              Sample.getAbbreviatedUrl Sample.getHeaderBidder
              Sample.getCriticalGraph (list NetworkRequest.t)
              (fun log => log) Sample.getTimingsByRecord
              Sample.network [] Sample.expectedProduct Sample.expectedTable
              sample_bids_audit eq_refl)
    as (pubadsImpl & _ & Hrows).
  eexists. exact Hrows.
Defined.
